(** * The repository analyzer of github_repo_summarizer.py

    A shallow embedding of class GitHubRepoAnalyzer: the directory walks,
    the regular-expression import extraction, the path resolver, the
    Terraform extractor, the nested-dictionary structure builder and the
    summary counters, over a model of a POSIX file system.

    Text is modelled as byte strings restricted to ASCII: a character
    above 127 is neither a space nor a word character here. *)

From Stdlib Require Import Ascii String.
From stdpp Require Import gmap strings list.

Set Warnings "-register-all".

(** ** Python string operations used by the analyzer *)

Module Str.

(** s.startswith(p) *)
Definition startswith (p s : string) : bool := String.prefix p s.

(** s.endswith(c) for a one-character suffix *)
Fixpoint endswith_char (c : ascii) (s : string) : bool :=
  match s with
  | EmptyString => false
  | String a EmptyString => Ascii.eqb a c
  | String _ s' => endswith_char c s'
  end.

(** sub in s *)
Fixpoint contains (sub s : string) : bool :=
  String.prefix sub s ||
  match s with
  | EmptyString => false
  | String _ s' => contains sub s'
  end.

(** s.replace(a, b) for single characters *)
Fixpoint replace (a b : ascii) (s : string) : string :=
  match s with
  | EmptyString => EmptyString
  | String c s' => String (if Ascii.eqb c a then b else c) (replace a b s')
  end.

(** s.split(sep): never empty, one more field than separators *)
Fixpoint split (sep : ascii) (s : string) : list string :=
  match s with
  | EmptyString => [EmptyString]
  | String c s' =>
      if Ascii.eqb c sep then EmptyString :: split sep s'
      else match split sep s' with
           | h :: t => String c h :: t
           | [] => [String c EmptyString]
           end
  end.

(** sep.join(l) *)
Fixpoint join (sep : string) (l : list string) : string :=
  match l with
  | [] => EmptyString
  | [x] => x
  | x :: l' => x +:+ sep +:+ join sep l'
  end.

(** s.rstrip(c) *)
Fixpoint rstrip (c : ascii) (s : string) : string :=
  match s with
  | EmptyString => EmptyString
  | String a s' =>
      match rstrip c s' with
      | EmptyString => if Ascii.eqb a c then EmptyString else String a EmptyString
      | r => String a r
      end
  end.

Fixpoint all_chars (p : ascii -> bool) (s : string) : bool :=
  match s with
  | EmptyString => true
  | String a s' => p a && all_chars p s'
  end.

Definition lower_char (c : ascii) : ascii :=
  let n := nat_of_ascii c in
  if (65 <=? n)%nat && (n <=? 90)%nat then ascii_of_nat (n + 32) else c.

(** s.lower() on ASCII text *)
Fixpoint lower (s : string) : string :=
  match s with
  | EmptyString => EmptyString
  | String c s' => String (lower_char c) (lower s')
  end.

(** s.rfind(c): index of the last occurrence, None for -1 *)
Fixpoint rfind (c : ascii) (s : string) : option nat :=
  match s with
  | EmptyString => None
  | String a s' =>
      match rfind c s' with
      | Some i => Some (S i)
      | None => if Ascii.eqb a c then Some 0%nat else None
      end
  end.

(** s[:i] and s[i:] *)
Fixpoint take (i : nat) (s : string) : string :=
  match i, s with
  | S i', String a s' => String a (take i' s')
  | _, _ => EmptyString
  end.

Fixpoint drop (i : nat) (s : string) : string :=
  match i, s with
  | S i', String _ s' => drop i' s'
  | _, _ => s
  end.

(** x in l for a list of strings *)
Definition mem (x : string) (l : list string) : bool :=
  existsb (String.eqb x) l.

(** truthiness of a string *)
Definition truthy (s : string) : bool :=
  match s with EmptyString => false | _ => true end.

End Str.

(** ** os.path on POSIX (posixpath.py, genericpath.py) *)

Module PosixPath.

Definition sep : ascii := "/"%char.

(** os.path.isabs *)
Definition isabs (p : string) : bool := Str.startswith "/" p.

(** os.path.join(a, b): an absolute b replaces a *)
Definition join (a b : string) : string :=
  if Str.startswith "/" b then b
  else if negb (Str.truthy a) || Str.endswith_char sep a then a +:+ b
  else a +:+ "/" +:+ b.

(** os.path.dirname: the text before the last slash, trailing slashes
    stripped unless it is all slashes *)
Definition dirname (p : string) : string :=
  let i := match Str.rfind sep p with Some i => S i | None => 0%nat end in
  let head := Str.take i p in
  if Str.truthy head && negb (Str.all_chars (Ascii.eqb sep) head)
  then Str.rstrip sep head else head.

(** the component loop of normpath; new_comps is kept reversed *)
Fixpoint norm_comps (initial_slashes : bool) (comps new_comps : list string)
  : list string :=
  match comps with
  | [] => rev new_comps
  | comp :: comps' =>
      if String.eqb comp "" || String.eqb comp "." then
        norm_comps initial_slashes comps' new_comps
      else if negb (String.eqb comp "..")
              || (negb initial_slashes && match new_comps with [] => true | _ => false end)
              || match new_comps with last :: _ => String.eqb last ".." | [] => false end
      then norm_comps initial_slashes comps' (comp :: new_comps)
      else norm_comps initial_slashes comps' (tail new_comps)
  end.

(** os.path.normpath *)
Definition normpath (path : string) : string :=
  if negb (Str.truthy path) then "." else
  let initial_slashes :=
    if Str.startswith "/" path then
      if Str.startswith "//" path && negb (Str.startswith "///" path)
      then 2%nat else 1%nat
    else 0%nat in
  let comps := norm_comps (negb (initial_slashes =? 0)%nat)
                 (Str.split sep path) [] in
  let path' := Str.join "/" comps in
  let path' := match initial_slashes with
               | 0%nat => path'
               | 1%nat => "/" +:+ path'
               | _ => "//" +:+ path'
               end in
  if Str.truthy path' then path' else ".".

(** os.path.splitext(p)[1]: the text from the last dot of the last
    component, unless only dots precede it there *)
Definition splitext_ext (p : string) : string :=
  let sepIndex := Str.rfind sep p in
  match Str.rfind "."%char p with
  | None => EmptyString
  | Some dotIndex =>
      let filenameIndex := match sepIndex with Some i => S i | None => 0%nat end in
      if (filenameIndex <=? dotIndex)%nat
         && negb (Str.all_chars (Ascii.eqb "."%char)
                    (Str.take (dotIndex - filenameIndex) (Str.drop filenameIndex p)))
      then Str.drop dotIndex p
      else EmptyString
  end.

End PosixPath.

(** ** The file system

    A tree of named entries. A file carries its text, or None when it
    cannot be read or decoded as UTF-8. Symbolic links and permissions
    are not modelled. *)

Inductive node :=
| File (content : option string)
| Dir (entries : list (string * node)).

(** The root directory and the working directory of the process, the
    latter as the names leading to it from the root. *)
Record filesystem := {
  fs_root : node;
  fs_cwd : list string
}.

Module FS.

Fixpoint assoc {A} (k : string) (l : list (string * A)) : option A :=
  match l with
  | [] => None
  | (k', v) :: l' => if String.eqb k k' then Some v else assoc k l'
  end.

(** the node at a location given by names from the root *)
Fixpoint get (n : node) (loc : list string) : option node :=
  match loc with
  | [] => Some n
  | x :: loc' =>
      match n with
      | Dir es => match assoc x es with
                  | Some c => get c loc'
                  | None => None
                  end
      | File _ => None
      end
  end.

(** one component of a path: the place reached so far must be a
    directory; an empty component and a dot stay there, two dots go to
    the parent, a name goes to that entry *)
Definition step (root : node) (loc : option (list string)) (comp : string)
  : option (list string) :=
  match loc with
  | None => None
  | Some l =>
      match get root l with
      | Some (Dir _) =>
          if String.eqb comp "" || String.eqb comp "." then Some l
          else if String.eqb comp ".." then Some (removelast l)
          else match get root (l ++ [comp]) with
               | Some _ => Some (l ++ [comp])
               | None => None
               end
      | _ => None
      end
  end.

(** the node a path string names, if any *)
Definition locate (fs : filesystem) (p : string) : option node :=
  if negb (Str.truthy p) then None else
  let start := if PosixPath.isabs p then [] else fs_cwd fs in
  match fold_left (step (fs_root fs)) (Str.split PosixPath.sep p) (Some start) with
  | Some l => get (fs_root fs) l
  | None => None
  end.

(** os.path.exists, os.path.isfile, os.path.isdir *)
Definition path_exists (fs : filesystem) (p : string) : bool :=
  match locate fs p with Some _ => true | None => false end.

Definition isfile (fs : filesystem) (p : string) : bool :=
  match locate fs p with Some (File _) => true | _ => false end.

Definition isdir (fs : filesystem) (p : string) : bool :=
  match locate fs p with Some (Dir _) => true | _ => false end.

End FS.

(** ** The path resolver *)

Definition possible_extensions : list string :=
  [".py"; ".js"; ".tsx"; ".jsx"; ".ts"; ".java"; ".go"; ".tf"].

(** the inner loop of _resolve_absolute_import: for ext in possible_extensions *)
Fixpoint resolve_extensions (fs : filesystem) (base_path : string)
    (exts : list string) : option string :=
  match exts with
  | [] => None
  | ext :: exts' =>
      let potential_path := base_path +:+ ext in
      if FS.path_exists fs potential_path then
        Some (PosixPath.normpath potential_path)
      else if Str.mem ext [".py"; ".js"] then
        let index_file := if String.eqb ext ".py" then "__init__.py" else "index.js" in
        let package_path := PosixPath.join base_path index_file in
        if FS.path_exists fs package_path then
          Some (PosixPath.normpath package_path)
        else resolve_extensions fs base_path exts'
      else resolve_extensions fs base_path exts'
  end.

(** the outer loop: for base_path in search_paths *)
Fixpoint resolve_search_paths (fs : filesystem) (search_paths : list string)
    : option string :=
  match search_paths with
  | [] => None
  | base_path :: rest =>
      match resolve_extensions fs base_path possible_extensions with
      | Some p => Some p
      | None => resolve_search_paths fs rest
      end
  end.

Definition source_dir_of (local_path source_file : string) : string :=
  PosixPath.dirname (PosixPath.normpath (PosixPath.join local_path source_file)).

(** base A: the import below the directory of the importing file *)
Definition base_A (local_path source_file import_name : string) : string :=
  PosixPath.join (source_dir_of local_path source_file)
                 (Str.replace "."%char PosixPath.sep import_name).

(** base B: the import below the repository root *)
Definition base_B (local_path import_name : string) : string :=
  PosixPath.join local_path (Str.replace "."%char PosixPath.sep import_name).

(** _resolve_absolute_import: None is Python's None *)
Definition _resolve_absolute_import (fs : filesystem) (local_path : string)
    (source_file import_name : string) : option string :=
  let search_paths := [ base_A local_path source_file import_name;
                        base_B local_path import_name ] in
  match resolve_search_paths fs search_paths with
  | Some p => Some p
  | None =>
      if Str.startswith "." import_name then
        let potential_path :=
          PosixPath.normpath
            (PosixPath.join (source_dir_of local_path source_file) import_name) in
        if FS.path_exists fs potential_path then Some potential_path else None
      else None
  end.

(** ** Regular expressions (the fragment of Python's re the analyzer uses)

    A backtracking matcher with Python's priorities: the left branch of
    an alternation first, a greedy repetition longest first, a lazy one
    shortest first. Repetition is over one-character classes only, which
    is all the patterns of the analyzer need. *)

Module Re.

Definition cls := ascii -> bool.

Definition code (c : ascii) : nat := nat_of_ascii c.

(** \s: the ASCII characters Python counts as space *)
Definition space : cls := fun c =>
  let n := code c in
  ((9 <=? n) && (n <=? 13) || (28 <=? n) && (n <=? 32))%nat.

(** \w on ASCII *)
Definition word : cls := fun c =>
  let n := code c in
  ((48 <=? n) && (n <=? 57) || (65 <=? n) && (n <=? 90)
   || (97 <=? n) && (n <=? 122) || (n =? 95))%nat.

(** . without DOTALL *)
Definition dot : cls := fun c => negb (code c =? 10)%nat.

Definition one_of (s : string) : cls := fun c =>
  existsb (Ascii.eqb c) (list_ascii_of_string s).

Definition none_of (s : string) : cls := fun c => negb (one_of s c).

Definition union (p q : cls) : cls := fun c => p c || q c.

Definition dquote : ascii := "034"%char.
Definition squote : ascii := "039"%char.

(** the class of the two quote characters *)
Definition quote : cls := fun c => Ascii.eqb c dquote || Ascii.eqb c squote.

Inductive regex :=
| Lit (s : string)                       (* literal text *)
| Set1 (p : cls)                         (* one character of a class *)
| Opt (p : cls)                          (* p? *)
| Star (greedy : bool) (p : cls)         (* p* and p*? *)
| Plus (greedy : bool) (p : cls)         (* p+ and p+? *)
| Alt (r1 r2 : regex)                    (* r1|r2 *)
| Cat (r1 r2 : regex)                    (* r1 r2 *)
| Group (r : regex).                     (* (r), capturing *)

Section Match.
Context {R : Type}.

Definition orelse (a : option R) (b : unit -> option R) : option R :=
  match a with Some x => Some x | None => b tt end.

Fixpoint star (greedy : bool) (p : cls) (s : string)
    (k : string -> option R) : option R :=
  match s with
  | String c s' =>
      if p c then
        if greedy then orelse (star greedy p s' k) (fun _ => k s)
        else orelse (k s) (fun _ => star greedy p s' k)
      else k s
  | EmptyString => k s
  end.

(** the text matched between two suffixes of the subject *)
Definition consumed (s s' : string) : string :=
  Str.take (String.length s - String.length s') s.

Fixpoint run (r : regex) (s : string) (caps : list string)
    (k : string -> list string -> option R) : option R :=
  match r with
  | Lit l =>
      if String.prefix l s then k (Str.drop (String.length l) s) caps else None
  | Set1 p =>
      match s with
      | String c s' => if p c then k s' caps else None
      | EmptyString => None
      end
  | Opt p =>
      match s with
      | String c s' =>
          if p c then orelse (k s' caps) (fun _ => k s caps) else k s caps
      | EmptyString => k s caps
      end
  | Star g p => star g p s (fun s' => k s' caps)
  | Plus g p =>
      match s with
      | String c s' => if p c then star g p s' (fun s'' => k s'' caps) else None
      | EmptyString => None
      end
  | Alt r1 r2 => orelse (run r1 s caps k) (fun _ => run r2 s caps k)
  | Cat r1 r2 => run r1 s caps (fun s' caps' => run r2 s' caps' k)
  | Group r1 =>
      run r1 s caps (fun s' caps' => k s' (caps' ++ [consumed s s']))
  end.
End Match.

(** pattern.match at the start of s: the rest of the subject and the groups *)
Definition match_here (r : regex) (s : string) : option (string * list string) :=
  run r s [] (fun s' caps => Some (s', caps)).

(** the scan of re.findall: leftmost matches, not overlapping; after an
    empty match the scan moves on by one character *)
Fixpoint scan (fuel : nat) (r : regex) (s : string) : list (list string) :=
  match fuel with
  | O => []
  | S fuel' =>
      let next := match s with
                  | String _ s' => scan fuel' r s'
                  | EmptyString => []
                  end in
      match match_here r s with
      | Some (s', caps) =>
          caps :: (if (String.length s' <? String.length s)%nat
                   then scan fuel' r s' else next)
      | None => next
      end
  end.

Definition findall_groups (r : regex) (s : string) : list (list string) :=
  scan (S (String.length s)) r s.

(** re.findall for a pattern with one group: the list of its texts *)
Definition findall (r : regex) (s : string) : list string :=
  map (fun caps => hd EmptyString caps) (findall_groups r s).

(** re.findall for a pattern with two groups: the list of pairs *)
Definition findall2 (r : regex) (s : string) : list (string * string) :=
  map (fun caps => (nth 0 caps EmptyString, nth 1 caps EmptyString))
      (findall_groups r s).

(** re.search(r, s).group(1), None when there is no match *)
Definition search (r : regex) (s : string) : option string :=
  match findall_groups r s with
  | caps :: _ => Some (hd EmptyString caps)
  | [] => None
  end.

End Re.

Declare Scope re_scope.
Delimit Scope re_scope with re.
Infix "⋅" := Re.Cat (at level 40, left associativity) : re_scope.

(** ** The analyzer's tables *)

Inductive language := python | javascript | java | go | terraform.

Definition ignored_dirs : list string :=
  [".git"; "node_modules"; "__pycache__"; "venv"; ".env"; ".venv"].

Section Patterns.
Import Re.
Local Open Scope re_scope.

Definition chr (c : ascii) : cls := fun x => Ascii.eqb x c.
Definition not_chr (c : ascii) : cls := fun x => negb (Ascii.eqb x c).

(** [\w.] *)
Definition word_dot : cls := union word (chr "."%char).

(** a quote, (.+?), a quote *)
Definition quoted : regex := Set1 quote ⋅ Group (Plus false dot) ⋅ Set1 quote.

(** a double quote, a group of one or more characters other than a
    double quote, a double quote *)
Definition dquoted : regex :=
  Set1 (chr dquote) ⋅ Group (Plus true (not_chr dquote)) ⋅ Set1 (chr dquote).

(** language_patterns[lang]['files'] *)
Definition language_files (l : language) : list string :=
  match l with
  | python => [".py"]
  | javascript => [".js"; ".jsx"; ".ts"; ".tsx"]
  | java => [".java"]
  | go => [".go"]
  | terraform => [".tf"; ".tfvars"]
  end.

(** language_patterns[lang]['import_patterns'] *)
Definition import_patterns (l : language) : list regex :=
  match l with
  | python =>
      [ Alt (Lit "from") (Lit "import") ⋅ Plus true space ⋅ Group (Plus true word_dot);
        Lit "from" ⋅ Plus true space ⋅ Group (Plus true word_dot)
          ⋅ (Plus true space ⋅ Lit "import") ]
  | javascript =>
      [ Alt (Lit "import") (Lit "require") ⋅ Star true space ⋅ Opt (chr "("%char) ⋅ quoted;
        Lit "from" ⋅ Plus true space ⋅ quoted ]
  | java =>
      [ Lit "import" ⋅ Plus true space ⋅ Group (Plus true word_dot)
          ⋅ Alt (Lit ";") (Set1 space) ]
  | go =>
      [ Lit "import" ⋅ Plus true space ⋅ Lit "(" ⋅ Star true space ⋅ quoted;
        Lit "import" ⋅ Plus true space ⋅ quoted ]
  | terraform =>
      [ Lit "source" ⋅ Star true space ⋅ Lit "=" ⋅ Star true space ⋅ quoted;
        Lit "module" ⋅ Plus true space ⋅ quoted;
        Lit "terraform" ⋅ Star true space ⋅ Lit "{" ⋅ Star true space ⋅ Star false dot
          ⋅ Lit "source" ⋅ Star true space ⋅ Lit "=" ⋅ Star true space ⋅ quoted ]
  end.

(** the four patterns of _analyze_terraform_dependencies and the one
    applied to the inside of a module block *)
Definition module_block_re : regex :=
  Lit "module" ⋅ Plus true space ⋅ dquoted ⋅ Plus true space ⋅ Lit "{"
    ⋅ Group (Plus true (not_chr "}"%char)) ⋅ Lit "}".

Definition module_source_re : regex :=
  Lit "source" ⋅ Star true space ⋅ Lit "=" ⋅ Star true space ⋅ dquoted.

Definition resource_block_re : regex :=
  Lit "resource" ⋅ Plus true space ⋅ dquoted ⋅ Plus true space ⋅ dquoted
    ⋅ Plus true space ⋅ Lit "{".

Definition data_block_re : regex :=
  Lit "data" ⋅ Plus true space ⋅ dquoted ⋅ Plus true space ⋅ dquoted
    ⋅ Plus true space ⋅ Lit "{".

(** var\.([a-zA-Z0-9_-]+) *)
Definition var_ref_re : regex :=
  Lit "var." ⋅ Group (Plus true (union word (chr "-"%char))).

End Patterns.

Definition all_languages : list language :=
  [python; javascript; java; go; terraform].

(** _get_language_from_extension *)
Definition _get_language_from_extension (filename : string) : option language :=
  let extension := Str.lower (PosixPath.splitext_ext filename) in
  find (fun lang => Str.mem extension (language_files lang)) all_languages.

(** ** os.walk

    One item per directory visited, top down: the path string os.walk
    yields as root, the names descended from the top to reach it, and
    the names of its subdirectories and files in listing order. The
    argument keep is the filter the caller applies to dirs in place
    (dirs[:] = ...) before os.walk descends; a caller that leaves dirs
    alone keeps everything. *)

Record walk_item := {
  w_root : string;
  w_parts : list string;
  w_dirs : list string;
  w_files : list (string * option string)
}.

Definition subdirs (es : list (string * node)) : list string :=
  omap (fun e => match snd e with Dir _ => Some (fst e) | File _ => None end) es.

Definition files_of (es : list (string * node)) : list (string * option string) :=
  omap (fun e => match snd e with File c => Some (fst e, c) | Dir _ => None end) es.

Fixpoint walk (keep : string -> bool) (top : string) (parts : list string)
    (n : node) : list walk_item :=
  match n with
  | File _ => []
  | Dir es =>
      {| w_root := top; w_parts := parts;
         w_dirs := subdirs es; w_files := files_of es |}
      :: (fix below (l : list (string * node)) : list walk_item :=
            match l with
            | [] => []
            | (name, child) :: l' =>
                match child with
                | Dir _ =>
                    if keep name
                    then walk keep (PosixPath.join top name) (parts ++ [name]) child
                           ++ below l'
                    else below l'
                | File _ => below l'
                end
            end) es
  end.

(** os.walk(local_path): nothing when the path names no directory *)
Definition os_walk (fs : filesystem) (keep : string -> bool) (local_path : string)
    : list walk_item :=
  match FS.locate fs local_path with
  | Some n => walk keep local_path [] n
  | None => []
  end.

(** os.path.relpath(p, local_path) for a path p that os.walk(local_path)
    produced: the names descended from the top, joined by slashes. *)
Definition relpath_of (parts : list string) (name : string) : string :=
  Str.join "/" (parts ++ [name]).

(** ** The dependency pass *)

(** self.dependencies: a defaultdict(list) *)
Abbreviation depmap := (gmap string (list string)).

(** self.dependencies[rel_path].append(tok): the key is created on first use *)
Definition dep_append (rel_path tok : string) (deps : depmap) : depmap :=
  <[rel_path := default [] (deps !! rel_path) ++ [tok]]> deps.

(** any(ignored in root for ignored in self.ignored_dirs) *)
Definition root_ignored (root : string) : bool :=
  existsb (fun ignored => Str.contains ignored root) ignored_dirs.

Section Analyzer.
Variable fs : filesystem.
Variable local_path : string.

Definition resolve := _resolve_absolute_import fs local_path.

(** for match in matches: resolve, and append when the result is truthy *)
Definition record_matches (rel_path : string) (matches : list string)
    (deps : depmap) : depmap :=
  fold_left
    (fun d m =>
       match resolve rel_path m with
       | Some resolved_path =>
           if Str.truthy resolved_path then dep_append rel_path resolved_path d
           else d
       | None => d
       end)
    matches deps.

(** for pattern in import_patterns: re.findall(pattern, content) *)
Definition record_imports (rel_path content : string) (patterns : list Re.regex)
    (deps : depmap) : depmap :=
  fold_left
    (fun d pattern => record_matches rel_path (Re.findall pattern content) d)
    patterns deps.

(** _analyze_terraform_dependencies *)
Definition _analyze_terraform_dependencies (rel_path content : string)
    (deps : depmap) : depmap :=
  let module_blocks := Re.findall2 module_block_re content in
  let deps :=
    fold_left
      (fun d '(module_name, module_content) =>
         match Re.search module_source_re module_content with
         | Some module_source =>
             match resolve rel_path module_source with
             | Some resolved_module_path =>
                 if Str.truthy resolved_module_path then
                   dep_append rel_path
                     ("module:" +:+ module_name +:+ ":" +:+ resolved_module_path) d
                 else d
             | None => d
             end
         | None => d
         end)
      module_blocks deps in
  let resource_blocks := Re.findall2 resource_block_re content in
  let deps :=
    fold_left
      (fun d '(resource_type, resource_name) =>
         dep_append rel_path
           ("resource:" +:+ resource_type +:+ ":" +:+ resource_name) d)
      resource_blocks deps in
  let data_blocks := Re.findall2 data_block_re content in
  let deps :=
    fold_left
      (fun d '(data_type, data_name) =>
         dep_append rel_path ("data:" +:+ data_type +:+ ":" +:+ data_name) d)
      data_blocks deps in
  let var_refs := Re.findall var_ref_re content in
  fold_left (fun d var_name => dep_append rel_path ("var:" +:+ var_name) d)
    var_refs deps.

(** the body of the loop over files in _analyze_dependencies *)
Definition analyze_file (parts : list string) (file : string * option string)
    (deps : depmap) : depmap :=
  let rel_path := relpath_of parts (fst file) in
  match _get_language_from_extension (fst file) with
  | None => deps
  | Some lang =>
      match snd file with
      | None => deps                      (* UnicodeDecodeError, IOError *)
      | Some content =>
          let deps := record_imports rel_path content (import_patterns lang) deps in
          match lang with
          | terraform => _analyze_terraform_dependencies rel_path content deps
          | _ => deps
          end
      end
  end.

(** the body of the loop over os.walk in _analyze_dependencies *)
Definition analyze_dir (deps : depmap) (it : walk_item) : depmap :=
  if root_ignored (w_root it) then deps
  else fold_left (fun d file => analyze_file (w_parts it) file d) (w_files it) deps.

(** _analyze_dependencies: the new value of self.dependencies *)
Definition _analyze_dependencies : depmap :=
  fold_left analyze_dir (os_walk fs (fun _ => true) local_path) ∅.

End Analyzer.

(** ** The structure pass *)

(** The values of the nested dictionary: a dict (insertion ordered) or
    the list of tokens stored under the key dependencies. *)
Inductive pyval :=
| PList (items : list string)
| PDict (items : list (string * pyval)).

Abbreviation pydict := (list (string * pyval)).

Definition is_dict (v : pyval) : bool :=
  match v with PDict _ => true | PList _ => false end.

(** d[k] = v: in place for a known key, at the end for a new one *)
Fixpoint dict_set (k : string) (v : pyval) (d : pydict) : pydict :=
  match d with
  | [] => [(k, v)]
  | (k', v') :: d' =>
      if String.eqb k k' then (k, v) :: d' else (k', v') :: dict_set k v d'
  end.

(** set_nested_dict. None is the TypeError Python raises when the walk
    down the path meets a list instead of a dict. *)
Fixpoint set_nested_dict (d : pydict) (path : list string) (key : string)
    (value : pyval) : option pydict :=
  match path with
  | [] => Some (dict_set key value d)
  | part :: path' =>
      match FS.assoc part d with
      | None =>
          match set_nested_dict [] path' key value with
          | Some sub => Some (dict_set part (PDict sub) d)
          | None => None
          end
      | Some (PDict current) =>
          match set_nested_dict current path' key value with
          | Some sub => Some (dict_set part (PDict sub) d)
          | None => None
          end
      | Some (PList _) => None
      end
  end.

(** d not in self.ignored_dirs and not d.startswith('.') *)
Definition structure_keep (d : string) : bool :=
  negb (Str.mem d ignored_dirs) && negb (Str.startswith "." d).

(** the node stored for one file *)
Definition file_data (deps : depmap) (rel_file_path : string) : pyval :=
  match default [] (deps !! rel_file_path) with
  | [] => PDict []
  | file_deps => PDict [("dependencies", PList file_deps)]
  end.

Definition add_file (deps : depmap) (parts : list string)
    (st : option pydict) (file : string * option string) : option pydict :=
  match st with
  | None => None
  | Some d => set_nested_dict d parts (fst file)
                (file_data deps (relpath_of parts (fst file)))
  end.

Definition add_dir (deps : depmap) (st : option pydict) (it : walk_item)
    : option pydict :=
  fold_left (add_file deps (w_parts it)) (w_files it) st.

(** _build_file_structure: the new value of self.file_structure *)
Definition _build_file_structure (fs : filesystem) (local_path : string)
    (deps : depmap) : option pydict :=
  fold_left (add_dir deps) (os_walk fs structure_keep local_path) (Some []).

(** ** The summary *)

(** any(k for k in value.keys() if isinstance(value[k], dict)): some key
    with a dict value is truthy, that is, not the empty string. On a
    list, value.keys() raises AttributeError; the test is only reached
    behind isinstance(value, dict). *)
Definition has_dict_child (d : pydict) : bool :=
  existsb (fun e => is_dict (snd e) && Str.truthy (fst e)) d.

(** the test of _count_files for counting a value as a file *)
Definition counts_as_file (value : pyval) : bool :=
  match value with
  | PDict d => negb (has_dict_child d)
  | PList _ => false
  end.

(** the test of _count_directories for counting a value as a directory *)
Definition counts_as_directory (value : pyval) : bool :=
  match value with
  | PDict d => has_dict_child d
  | PList _ => false
  end.

(** _count_files(value). None is the AttributeError raised by
    structure.items() on a list. *)
Fixpoint _count_files (structure : pyval) : option nat :=
  match structure with
  | PList _ => None
  | PDict d =>
      (fix items (d : pydict) : option nat :=
         match d with
         | [] => Some 0%nat
         | (key, value) :: d' =>
             let here := if counts_as_file value then Some 1%nat
                         else _count_files value in
             match here, items d' with
             | Some a, Some b => Some (a + b)%nat
             | _, _ => None
             end
         end) d
  end.

(** _count_directories(value) *)
Fixpoint _count_directories (structure : pyval) : nat :=
  match structure with
  | PList _ => 0%nat
  | PDict d =>
      (fix items (d : pydict) : nat :=
         match d with
         | [] => 0%nat
         | (key, value) :: d' =>
             (if counts_as_directory value then 1 + _count_directories value else 0)
             + items d'
         end)%nat d
  end.

(** extensions[ext] = extensions.get(ext, 0) + 1 *)
Definition count_ext (extensions : gmap string nat) (file : string * option string)
    : gmap string nat :=
  let ext := Str.lower (PosixPath.splitext_ext (fst file)) in
  if Str.truthy ext then <[ext := (default 0 (extensions !! ext) + 1)%nat]> extensions
  else extensions.

Definition count_dir (extensions : gmap string nat) (it : walk_item)
    : gmap string nat :=
  if root_ignored (w_root it) then extensions
  else fold_left count_ext (w_files it) extensions.

(** _count_file_types *)
Definition _count_file_types (fs : filesystem) (local_path : string)
    : gmap string nat :=
  fold_left count_dir (os_walk fs (fun _ => true) local_path) ∅.

(** ** The analyzer object *)

Record analyzer := {
  local_path : option string;
  file_structure : pydict;
  dependencies : depmap
}.

(** the result of a method: a value and the new state, or an exception *)
Inductive outcome (A : Type) :=
| Returns (value : A) (self : analyzer)
| Raises.
Arguments Returns {A} value self.
Arguments Raises {A}.

(** analyze_repo *)
Definition analyze_repo (fs : filesystem) (self : analyzer) : outcome bool :=
  match local_path self with
  | None => Returns false self
  | Some lp =>
      if negb (Str.truthy lp) || negb (FS.path_exists fs lp) then Returns false self
      else
        let deps := _analyze_dependencies fs lp in
        match _build_file_structure fs lp deps with
        | Some structure =>
            Returns true {| local_path := Some lp;
                            file_structure := structure;
                            dependencies := deps |}
        | None => Raises
        end
  end.

Record summary := {
  file_count : nat;
  directory_count : nat;
  file_types : gmap string nat;
  structure : pydict
}.

(** generate_summary, for an analyzer whose local_path is set *)
Definition generate_summary (fs : filesystem) (self : analyzer) : option summary :=
  match local_path self, _count_files (PDict (file_structure self)) with
  | Some lp, Some files =>
      Some {| file_count := files;
              directory_count := _count_directories (PDict (file_structure self));
              file_types := _count_file_types fs lp;
              structure := file_structure self |}
  | _, _ => None
  end.

(** ** Vocabulary for the statements about the resolver *)

(** the package index file the inner loop tests after the direct file of
    an extension, for the two extensions that have one *)
Definition index_candidates (base_path ext : string) : list string :=
  if Str.mem ext [".py"; ".js"]
  then [PosixPath.join base_path
          (if String.eqb ext ".py" then "__init__.py" else "index.js")]
  else [].

(** the paths the inner loop tests at one base, in the order it tests them *)
Definition candidates_from (base_path : string) (exts : list string) : list string :=
  flat_map (fun ext => (base_path +:+ ext) :: index_candidates base_path ext) exts.

Definition candidates (base_path : string) : list string :=
  candidates_from base_path possible_extensions.

(** base/candidate + extension, for every known extension *)
Definition direct_candidates (base_path : string) : list string :=
  map (fun ext => base_path +:+ ext) possible_extensions.

(** base/candidate/__init__.py and base/candidate/index.js *)
Definition package_candidates (base_path : string) : list string :=
  [PosixPath.join base_path "__init__.py"; PosixPath.join base_path "index.js"].

(** p lies below the directory lp *)
Definition under (lp p : string) : bool :=
  Str.startswith (PosixPath.normpath lp +:+ "/") p.

(** *** Sample repositories *)

Definition src (text : string) : node := File (Some text).

(** util.py next to the importing file and util.py at the root *)
Definition fs_two_utils : filesystem := {|
  fs_root := Dir [("repo", Dir [("util.py", src "");
                                 ("pkg", Dir [("main.py", src "import util");
                                              ("util.py", src "")])])];
  fs_cwd := [] |}.

(** a package directory pkg and a module pkg.js side by side *)
Definition fs_pkg_and_js : filesystem := {|
  fs_root := Dir [("repo", Dir [("main.py", src "import pkg");
                                 ("pkg.js", src "");
                                 ("pkg", Dir [("__init__.py", src "")])])];
  fs_cwd := [] |}.

(** a Terraform module directory, and a directory beside the repository *)
Definition fs_module_dir : filesystem := {|
  fs_root := Dir [("repo", Dir [("main.tf", src "");
                                 ("main.js", src "");
                                 ("b.py", src "");
                                 ("modules", Dir [("vpc", Dir [("main.tf", src "")])])]);
                  ("shared", Dir [("x.js", src "")])];
  fs_cwd := [] |}.

(** ** Well-formed file systems

    What every real directory listing satisfies: a name is not empty,
    holds no slash, is neither dot nor dot-dot, and occurs once in its
    directory. *)

Definition valid_name (s : string) : bool :=
  Str.truthy s && negb (Str.contains "/" s)
  && negb (String.eqb s ".") && negb (String.eqb s "..").

Fixpoint distinct (l : list string) : bool :=
  match l with
  | [] => true
  | x :: l' => negb (Str.mem x l') && distinct l'
  end.

Fixpoint wf_node (n : node) : bool :=
  match n with
  | File _ => true
  | Dir es =>
      forallb (fun e => valid_name (fst e)) es
      && distinct (map fst es)
      && (fix all (l : list (string * node)) : bool :=
            match l with
            | [] => true
            | (_, child) :: l' => wf_node child && all l'
            end) es
  end.

Definition wf_fs (fs : filesystem) : bool := wf_node (fs_root fs).

(** what the walk does below one entry of a directory *)
Definition walk_entry (keep : string -> bool) (top : string) (parts : list string)
    (e : string * node) : list walk_item :=
  match snd e with
  | Dir _ =>
      if keep (fst e)
      then walk keep (PosixPath.join top (fst e)) (parts ++ [fst e]) (snd e)
      else []
  | File _ => []
  end.

(** a repository whose path has venv inside the name of a directory *)
Definition fs_venvs : filesystem := {|
  fs_root := Dir [("home", Dir [("venvs", Dir [("app",
                Dir [("main.py", src "import util");
                     ("util.py", src "");
                     ("notes.md", src "")])])]);
                  ("srv", Dir [("app",
                Dir [("main.py", src "import util");
                     ("util.py", src "");
                     ("notes.md", src "")])])];
  fs_cwd := [] |}.

(** ** Vocabulary for the statements about the histogram *)


Definition file_ext (file : string * option string) : string :=
  Str.lower (PosixPath.splitext_ext (fst file)).

Definition count_with_ext (ext : string) (files : list (string * option string)) : nat :=
  length (List.filter (fun f => String.eqb (file_ext f) ext) files).

(** three .tf files, two .md files, one file without extension *)
Definition fs_histogram : filesystem := {|
  fs_root := Dir [("repo", Dir [("main.tf", src "");
                                 ("variables.tf", src "");
                                 ("README.md", src "");
                                 ("LICENSE", src "");
                                 ("docs", Dir [("CHANGELOG.md", src "");
                                               ("outputs.tf", src "")])])];
  fs_cwd := [] |}.

(** ** Vocabulary for the statements about the dependency map *)

(** appending a list of tokens, one append after the other *)
Definition dep_extend (rel_path : string) (toks : list string) (deps : depmap)
    : depmap :=
  fold_left (fun d t => dep_append rel_path t d) toks deps.

(** what one match of an import pattern records *)
Definition import_token (fs : filesystem) (lp rel_path m : string) : option string :=
  match _resolve_absolute_import fs lp rel_path m with
  | Some resolved_path => if Str.truthy resolved_path then Some resolved_path else None
  | None => None
  end.

(** what one module block records *)
Definition module_token (fs : filesystem) (lp rel_path : string)
    (block : string * string) : option string :=
  match Re.search module_source_re (snd block) with
  | Some module_source =>
      match _resolve_absolute_import fs lp rel_path module_source with
      | Some resolved_module_path =>
          if Str.truthy resolved_module_path
          then Some ("module:" +:+ fst block +:+ ":" +:+ resolved_module_path)
          else None
      | None => None
      end
  | None => None
  end.

Definition import_tokens (fs : filesystem) (lp rel_path content : string)
    (patterns : list Re.regex) : list string :=
  flat_map (fun pattern => omap (import_token fs lp rel_path)
                             (Re.findall pattern content)) patterns.

Definition module_tokens (fs : filesystem) (lp rel_path content : string)
    : list string :=
  omap (module_token fs lp rel_path) (Re.findall2 module_block_re content).

Definition resource_tokens (content : string) : list string :=
  map (fun b => "resource:" +:+ fst b +:+ ":" +:+ snd b)
      (Re.findall2 resource_block_re content).

Definition data_tokens (content : string) : list string :=
  map (fun b => "data:" +:+ fst b +:+ ":" +:+ snd b)
      (Re.findall2 data_block_re content).

Definition var_tokens (content : string) : list string :=
  map (fun v => "var:" +:+ v) (Re.findall var_ref_re content).

Definition terraform_tokens (fs : filesystem) (lp rel_path content : string)
    : list string :=
  module_tokens fs lp rel_path content ++ resource_tokens content
  ++ data_tokens content ++ var_tokens content.

(** the tokens one file contributes, in the order they are appended *)
Definition file_tokens (fs : filesystem) (lp : string) (parts : list string)
    (file : string * option string) : list string :=
  let rel_path := relpath_of parts (fst file) in
  match _get_language_from_extension (fst file), snd file with
  | Some lang, Some content =>
      import_tokens fs lp rel_path content (import_patterns lang)
      ++ match lang with
         | terraform => terraform_tokens fs lp rel_path content
         | _ => []
         end
  | _, _ => []
  end.

(** the files the dependency pass scans, each with the names leading to
    its directory *)
Definition scanned_files (fs : filesystem) (lp : string)
    : list (list string * (string * option string)) :=
  flat_map (fun it => if root_ignored (w_root it) then []
                      else map (fun f => (w_parts it, f)) (w_files it))
           (os_walk fs (fun _ => true) lp).

(** a recorded token of the file rel_path: a path the resolver returned
    for it, a module token around such a path, or a resource, data or
    var token *)
Definition recorded_ok (fs : filesystem) (lp rel_path t : string) : Prop :=
  (exists m, _resolve_absolute_import fs lp rel_path m = Some t)
  \/ (exists name m p, _resolve_absolute_import fs lp rel_path m = Some p
                       /\ t = "module:" +:+ name +:+ ":" +:+ p)
  \/ Str.startswith "resource:" t = true
  \/ Str.startswith "data:" t = true
  \/ Str.startswith "var:" t = true.

(** *** The Terraform scenario *)

Definition nl : string := String "010"%char EmptyString.

(** text with every dollar sign standing for a double quote *)
Definition quotes (s : string) : string := Str.replace "$"%char Re.dquote s.

Definition tf_content : string :=
  quotes ("module $vpc$ { source = $./modules/vpc$ }" +:+ nl +:+
          "resource $aws_vpc$ $main$ {" +:+ nl +:+
          "  cidr_block = var.cidr_block" +:+ nl +:+
          "}" +:+ nl +:+
          "data $aws_ami$ $ubuntu$ {" +:+ nl +:+
          "  owners = [var.cidr_block]" +:+ nl +:+
          "}" +:+ nl).

Definition fs_tf_with_module : filesystem := {|
  fs_root := Dir [("repo", Dir [("main.tf", src tf_content);
                                 ("modules", Dir [("vpc", Dir [("main.tf", src "")])])])];
  fs_cwd := [] |}.

Definition fs_tf_without_module : filesystem := {|
  fs_root := Dir [("repo", Dir [("main.tf", src tf_content)])];
  fs_cwd := [] |}.

(** the scanned files as pairs of relative path and contributed tokens *)
Definition scanned_tokens (fs : filesystem) (lp : string)
    : list (string * list string) :=
  map (fun pf => (relpath_of (fst pf) (fst (snd pf)),
                  file_tokens fs lp (fst pf) (snd pf)))
      (scanned_files fs lp).

(** the tokens contributed under the key k, in scan order *)
Definition tokens_at (k : string) (entries : list (string * list string))
    : list string :=
  concat (map snd (List.filter (fun e => String.eqb (fst e) k) entries)).

(** a result of the resolver as a list of at most one token *)
Definition resolved (fs : filesystem) (lp rel_path m : string) : list string :=
  match _resolve_absolute_import fs lp rel_path m with
  | Some p => [p]
  | None => []
  end.

(** ** Vocabulary for the statements about the structure *)

(** the two shapes a file is stored in: the empty dict, or a dict with
    the single key dependencies and a list that is not empty *)
Definition file_shaped (v : pyval) : Prop :=
  v = PDict []
  \/ exists l, l <> [] /\ v = PDict [("dependencies", PList l)].

(** the structure built so far agrees with the tree: every key names an
    entry of the directory, a file entry is stored file-shaped, and a
    directory entry as a dict that is not empty and agrees in turn *)
Inductive conforms : node -> pyval -> Prop :=
| conforms_file c v :
    file_shaped v -> conforms (File c) v
| conforms_dir es d :
    d <> [] ->
    Forall (fun kv => exists c, FS.assoc (fst kv) es = Some c
                                /\ conforms c (snd kv)) d ->
    conforms (Dir es) (PDict d).

Definition conforms_entries (es : list (string * node)) (d : pydict) : Prop :=
  Forall (fun kv => exists c, FS.assoc (fst kv) es = Some c /\ conforms c (snd kv)) d.

(** the dict reached from d along a path of keys *)
Fixpoint node_at (d : pydict) (path : list string) : option pyval :=
  match path with
  | [] => Some (PDict d)
  | k :: path' =>
      match FS.assoc k d with
      | Some (PDict d') => node_at d' path'
      | _ => None
      end
  end.

(** exclusion by the two walks disagrees here: a dot directory, a
    directory whose name merely contains venv, and a plain one *)
Definition fs_two_rules : filesystem := {|
  fs_root := Dir [("repo", Dir [(".config", Dir [("a.py", src "import b");
                                                 ("b.py", src "")]);
                                 ("myvenv", Dir [("a.py", src "import b");
                                                 ("b.py", src "")]);
                                 ("src", Dir [("a.py", src "import b");
                                              ("b.py", src "")])])];
  fs_cwd := [] |}.

(** a directory named dependencies inside a package *)
Definition fs_dependencies_dir : filesystem := {|
  fs_root := Dir [("repo", Dir [("pkg", Dir [("dependencies",
                                               Dir [("a.py", src "")])])])];
  fs_cwd := [] |}.

(** ** Vocabulary for the statements about nested dictionaries *)

(** d[k1][k2]...[kn]: the value reached along a path of keys, None when
    a key is missing or a list is in the way *)
Fixpoint value_at (d : pydict) (path : list string) : option pyval :=
  match path with
  | [] => Some (PDict d)
  | k :: path' =>
      match FS.assoc k d, path' with
      | Some v, [] => Some v
      | Some (PDict d'), _ => value_at d' path'
      | _, _ => None
      end
  end.

(** one path is the beginning of the other *)
Definition comparable (p q : list string) : Prop :=
  (exists r, q = p ++ r) \/ (exists r, p = q ++ r).

(** ** The structure as a function of the tree *)

(** the entry stored for one file of the directory reached by parts *)
Definition file_entry (deps : depmap) (parts : list string)
    (f : string * option string) : string * pyval :=
  (fst f, file_data deps (relpath_of parts (fst f))).

(** The dict for a directory: its files in listing order, then, in
    listing order, every kept subdirectory whose own dict is not empty. *)
Fixpoint shape (deps : depmap) (parts : list string) (n : node) : pydict :=
  match n with
  | File _ => []
  | Dir es =>
      map (file_entry deps parts) (files_of es)
      ++ (fix below (l : list (string * node)) : pydict :=
            match l with
            | [] => []
            | (name, child) :: l' =>
                match child with
                | Dir _ =>
                    if structure_keep name then
                      match shape deps (parts ++ [name]) child with
                      | [] => below l'
                      | sub => (name, PDict sub) :: below l'
                      end
                    else below l'
                | File _ => below l'
                end
            end) es
  end.

Definition shape_entry (deps : depmap) (parts : list string) (e : string * node)
    : pydict :=
  match snd e with
  | Dir _ =>
      if structure_keep (fst e) then
        match shape deps (parts ++ [fst e]) (snd e) with
        | [] => []
        | sub => [(fst e, PDict sub)]
        end
      else []
  | File _ => []
  end.

(** the dict under a key, empty when the key is missing *)
Definition sub_dict (d : pydict) (part : string) : pydict :=
  match FS.assoc part d with
  | Some (PDict cur) => cur
  | _ => []
  end.

(** adding the entries sub to the dict at a path, making the dicts on
    the way as needed *)
Fixpoint graft (d : pydict) (path : list string) (sub : pydict) : pydict :=
  match path with
  | [] => d ++ sub
  | part :: path' => dict_set part (PDict (graft (sub_dict d part) path' sub)) d
  end.

(** the same, touching nothing when there is nothing to add *)
Definition graft_some (d : pydict) (path : list string) (sub : pydict) : pydict :=
  match sub with
  | [] => d
  | _ => graft d path sub
  end.

(** the dict at a path, empty when the path is not there *)
Fixpoint dict_at (d : pydict) (path : list string) : pydict :=
  match path with
  | [] => d
  | part :: path' => dict_at (sub_dict d part) path'
  end.

(** no list is in the way along the path *)
Fixpoint clean (d : pydict) (path : list string) : Prop :=
  match path with
  | [] => True
  | part :: path' =>
      match FS.assoc part d with
      | Some (PList _) => False
      | Some (PDict cur) => clean cur path'
      | None => True
      end
  end.

(** the number of files the structure walk lists in a directory and
    below it *)
Fixpoint kept_files (n : node) : nat :=
  match n with
  | File _ => 0%nat
  | Dir es =>
      (length (files_of es)
       + (fix below (l : list (string * node)) : nat :=
            match l with
            | [] => 0
            | (name, child) :: l' =>
                match child with
                | Dir _ => if structure_keep name then kept_files child else 0
                | File _ => 0
                end + below l'
            end) es)%nat
  end.

(** the number of kept directories below a directory that hold a listed
    file, themselves or further down *)
Fixpoint kept_dirs (n : node) : nat :=
  match n with
  | File _ => 0%nat
  | Dir es =>
      ((fix below (l : list (string * node)) : nat :=
          match l with
          | [] => 0
          | (name, child) :: l' =>
              match child with
              | Dir _ =>
                  if structure_keep name && (0 <? kept_files child)
                  then 1 + kept_dirs child else 0
              | File _ => 0
              end + below l'
          end) es)%nat
  end.

Definition kept_files_entry (e : string * node) : nat :=
  match snd e with
  | Dir _ => if structure_keep (fst e) then kept_files (snd e) else 0%nat
  | File _ => 0%nat
  end.

Definition kept_dirs_entry (e : string * node) : nat :=
  match snd e with
  | Dir _ =>
      if structure_keep (fst e) && (0 <? kept_files (snd e))
      then (1 + kept_dirs (snd e))%nat else 0%nat
  | File _ => 0%nat
  end.

(** a repository with an empty directory, a directory of directories
    and an ignored directory *)
Definition fs_nested : filesystem := {|
  fs_root := Dir [("repo",
    Dir [("README.md", src "");
         ("empty", Dir []);
         ("hollow", Dir [("inner", Dir [])]);
         ("node_modules", Dir [("lib.js", src "")]);
         ("src", Dir [("core", Dir [("a.py", src "import b");
                                    ("b.py", src "")]);
                      ("main.py", src "import core.a")])])];
  fs_cwd := [] |}.

(** ** The reports read off the structure *)

(** the test any(isinstance(value[k], dict) for k in value.keys()) of
    the traversals of the structure *)
Definition any_dict_value (d : pydict) : bool :=
  existsb (fun e => is_dict (snd e)) d.

(** len(v) *)
Definition py_len (v : pyval) : nat :=
  match v with
  | PList l => length l
  | PDict d => length d
  end.

(** collect_deps of print_summary: what it appends to files_with_deps,
    in order. A value holding the key dependencies is reported with the
    length of what is stored there and is not gone into. *)
Fixpoint collect_deps (structure : pyval) (path : string) : list (string * nat) :=
  match structure with
  | PList _ => []
  | PDict d =>
      (fix items (d : pydict) : list (string * nat) :=
         match d with
         | [] => []
         | (key, value) :: d' =>
             let current_path := PosixPath.join path key in
             match value with
             | PDict vd =>
                 match FS.assoc "dependencies" vd with
                 | Some stored => [(current_path, py_len stored)]
                 | None =>
                     if any_dict_value vd then collect_deps value current_path
                     else []
                 end
             | PList _ => []
             end ++ items d'
         end) d
  end.

(** s.split(sep, maxsplit): at most maxsplit cuts, from the left *)
Fixpoint split_max (sep : ascii) (s : string) (maxsplit : nat) : list string :=
  match maxsplit, s with
  | O, _ => [s]
  | _, EmptyString => [EmptyString]
  | S m, String c s' =>
      if Ascii.eqb c sep then EmptyString :: split_max sep s' m
      else match split_max sep s' maxsplit with
           | h :: t => String c h :: t
           | [] => [String c EmptyString]
           end
  end.

(** d[k] = v on a dict of any values *)
Fixpoint assoc_set {A} (k : string) (v : A) (d : list (string * A))
    : list (string * A) :=
  match d with
  | [] => [(k, v)]
  | (k', v') :: d' =>
      if String.eqb k k' then (k, v) :: d' else (k', v') :: assoc_set k v d'
  end.

(** if t not in d: d[t] = []; then d[t].append(name) *)
Definition append_under (t name : string) (d : list (string * list string))
    : list (string * list string) :=
  assoc_set t (default [] (FS.assoc t d) ++ [name]) d.

(** the four collections of _get_terraform_summary *)
Record components := {
  modules : list (string * string);
  resources : list (string * list string);
  data_sources : list (string * list string);
  variables : gset string
}.

(** _, a, b = dep.split(':', 2). None is the ValueError raised when the
    split has fewer than three fields. *)
Definition unpack3 (dep : string) : option (string * string) :=
  match split_max ":" dep 2 with
  | [_; a; b] => Some (a, b)
  | _ => None
  end.

(** the body of the loop over value["dependencies"] *)
Definition collect_dep (st : components) (dep : string) : option components :=
  if Str.startswith "module:" dep then
    match unpack3 dep with
    | Some (module_name, module_source) =>
        Some {| modules := assoc_set module_name module_source (modules st);
                resources := resources st;
                data_sources := data_sources st;
                variables := variables st |}
    | None => None
    end
  else if Str.startswith "resource:" dep then
    match unpack3 dep with
    | Some (resource_type, resource_name) =>
        Some {| modules := modules st;
                resources := append_under resource_type resource_name (resources st);
                data_sources := data_sources st;
                variables := variables st |}
    | None => None
    end
  else if Str.startswith "data:" dep then
    match unpack3 dep with
    | Some (data_type, data_name) =>
        Some {| modules := modules st;
                resources := resources st;
                data_sources := append_under data_type data_name (data_sources st);
                variables := variables st |}
    | None => None
    end
  else if Str.startswith "var:" dep then
    match split_max ":" dep 1 with
    | _ :: var_name :: _ =>
        Some {| modules := modules st;
                resources := resources st;
                data_sources := data_sources st;
                variables := {[ var_name ]} ∪ variables st |}
    | _ => None                            (* IndexError *)
    end
  else Some st.

(** for dep in v: the items of a list, the keys of a dict *)
Definition iterate (v : pyval) : list string :=
  match v with
  | PList l => l
  | PDict d => map fst d
  end.

Definition collect_each (st : option components) (deps : list string)
    : option components :=
  fold_left (fun acc dep => match acc with
                            | Some s => collect_dep s dep
                            | None => None
                            end) deps st.

(** collect_terraform_deps of _get_terraform_summary *)
Fixpoint collect_terraform_deps (structure : pyval) (st : option components)
    : option components :=
  match structure with
  | PList _ => st
  | PDict d =>
      (fix items (d : pydict) (st : option components) : option components :=
         match d with
         | [] => st
         | (key, value) :: d' =>
             items d'
               match value with
               | PDict vd =>
                   match FS.assoc "dependencies" vd with
                   | Some stored => collect_each st (iterate stored)
                   | None =>
                       if any_dict_value vd then collect_terraform_deps value st
                       else st
                   end
               | PList _ => st
               end
         end) d st
  end.

Definition no_components : components :=
  {| modules := []; resources := []; data_sources := []; variables := ∅ |}.

(** no entry is named dependencies in the directory or in a kept
    directory below it *)
Fixpoint plain (n : node) : bool :=
  match n with
  | File _ => true
  | Dir es =>
      negb (Str.mem "dependencies" (map fst es))
      && (fix all (l : list (string * node)) : bool :=
            match l with
            | [] => true
            | (name, child) :: l' =>
                (if structure_keep name then plain child else true) && all l'
            end) es
  end.

(** the files the structure pass lists, each with the names leading to
    its directory *)
Definition listed_files (fs : filesystem) (lp : string)
    : list (list string * (string * option string)) :=
  flat_map (fun it => map (fun f => (w_parts it, f)) (w_files it))
           (os_walk fs structure_keep lp).

(** what collect_deps reports for a listed file *)
Definition reported (deps : depmap) (pf : list string * (string * option string))
    : option (string * nat) :=
  let rel := relpath_of (fst pf) (fst (snd pf)) in
  match default [] (deps !! rel) with
  | [] => None
  | l => Some (rel, length l)
  end.

(** the dependency list stored for a listed file, empty when there is none *)
Definition listed_tokens (deps : depmap)
    (pf : list string * (string * option string)) : list string :=
  default [] (deps !! relpath_of (fst pf) (fst (snd pf))).

(** ** Vocabulary for the statements about resolution bases *)



(** ** Vocabulary for the statements about letter case *)

(** an upper-case ASCII letter, by its code *)
Definition is_upper (c : ascii) : bool :=
  (65 <=? nat_of_ascii c)%nat && (nat_of_ascii c <=? 90)%nat.






(** two characters that are equal, or an upper-case letter and its
    lower-case form, 32 codes further *)
Definition same_letter (a b : ascii) : bool :=
  Ascii.eqb a b
  || (is_upper a && (nat_of_ascii b =? nat_of_ascii a + 32)%nat)
  || (is_upper b && (nat_of_ascii a =? nat_of_ascii b + 32)%nat).

(** two texts that are equal up to the case of their letters *)
Fixpoint same_ignoring_case (s t : string) : bool :=
  match s, t with
  | EmptyString, EmptyString => true
  | String a s', String b t' => same_letter a b && same_ignoring_case s' t'
  | _, _ => false
  end.


(* ================================================================= *)
(** * Properties *)

(** ** os.path on sample paths *)

Example normpath_ex1 : PosixPath.normpath "/repo/./src/../lib//x.py" = "/repo/lib/x.py".
Proof. reflexivity. Qed.

Example normpath_ex2 : PosixPath.normpath "//modules/vpc" = "//modules/vpc"
  /\ PosixPath.normpath "///a/../../b" = "/b"
  /\ PosixPath.normpath "a/../.." = "..".
Proof. repeat split; reflexivity. Qed.

Example dirname_ex : PosixPath.dirname "/repo/src/a.py" = "/repo/src"
  /\ PosixPath.dirname "a.py" = ""
  /\ PosixPath.dirname "/a.py" = "/".
Proof. repeat split; reflexivity. Qed.

Example splitext_ex : PosixPath.splitext_ext "main.TF" = ".TF"
  /\ PosixPath.splitext_ext ".gitignore" = ""
  /\ PosixPath.splitext_ext "a.tar.gz" = ".gz"
  /\ PosixPath.splitext_ext "Makefile" = "".
Proof. repeat split; reflexivity. Qed.

(** ** Strings and paths *)

Lemma prefix_nil s : String.prefix EmptyString s = true.
Proof. by destruct s. Qed.

Lemma prefix_cons c p a s :
  String.prefix (String c p) (String a s)
  = if ascii_dec c a then String.prefix p s else false.
Proof. reflexivity. Qed.

Lemma prefix_inv p s : String.prefix p s = true -> exists t, s = p +:+ t.
Proof.
  revert s. induction p as [|c p IH]; intros s H.
  - by exists s.
  - destruct s as [|a s]; [discriminate|].
    rewrite prefix_cons in H. destruct (ascii_dec c a) as [->|]; [|discriminate].
    destruct (IH _ H) as [t ->]. by exists t.
Qed.

Lemma prefix_append p t : String.prefix p (p +:+ t) = true.
Proof.
  induction p as [|c p IH]; [apply prefix_nil|].
  change (String c p +:+ t) with (String c (p +:+ t)).
  rewrite prefix_cons. by destruct (ascii_dec c c).
Qed.

Lemma append_cons x (a b : string) : String x a +:+ b = String x (a +:+ b).
Proof. reflexivity. Qed.

Lemma append_assoc (a b c : string) : (a +:+ b) +:+ c = a +:+ (b +:+ c).
Proof. induction a as [|x a IH]; [done|]. rewrite !append_cons. by f_equal. Qed.

Lemma prefix_extend p s t :
  String.prefix p s = true -> String.prefix p (s +:+ t) = true.
Proof.
  intros [u ->]%prefix_inv. rewrite append_assoc. apply prefix_append.
Qed.

(** a substring of s is a substring of every extension of s *)
Lemma contains_extend sub s t :
  Str.contains sub s = true -> Str.contains sub (s +:+ t) = true.
Proof.
  induction s as [|a s IH]; intros H.
  - destruct sub; [|discriminate]. destruct t; reflexivity.
  - cbn [Str.contains] in H. apply orb_true_iff in H as [H|H].
    + change (String a s +:+ t) with (String a (s +:+ t)).
      cbn [Str.contains]. apply orb_true_iff. left.
      by apply (prefix_extend sub (String a s) t).
    + change (String a s +:+ t) with (String a (s +:+ t)).
      cbn [Str.contains]. apply orb_true_iff. right. by apply IH.
Qed.

Lemma isabs_inv p : PosixPath.isabs p = true -> exists s, p = String "/"%char s.
Proof.
  intros [t ->]%prefix_inv. by exists t.
Qed.

Lemma isabs_cons s : PosixPath.isabs (String "/"%char s) = true.
Proof. apply (prefix_append "/" s). Qed.

Lemma isabs_append a b : PosixPath.isabs a = true -> PosixPath.isabs (a +:+ b) = true.
Proof. intros [s ->]%isabs_inv. apply isabs_cons. Qed.

Lemma join_isabs_l a b : PosixPath.isabs a = true -> PosixPath.isabs (PosixPath.join a b) = true.
Proof.
  intros Ha. unfold PosixPath.join.
  destruct (Str.startswith "/" b) eqn:Hb; [exact Hb|].
  destruct (_ || _); by apply isabs_append.
Qed.

Lemma normpath_isabs p : PosixPath.isabs p = true -> PosixPath.isabs (PosixPath.normpath p) = true.
Proof.
  intros [s ->]%isabs_inv. unfold PosixPath.normpath.
  change (Str.startswith "/" (String "/" s)) with (PosixPath.isabs (String "/" s)).
  rewrite isabs_cons. cbn [Str.truthy negb].
  destruct (_ && _); rewrite append_cons; cbn [Str.truthy]; apply isabs_cons.
Qed.

Lemma rfind_first c s : exists i, Str.rfind c (String c s) = Some i.
Proof.
  simpl. destruct (Str.rfind c s); [eauto|]. rewrite Ascii.eqb_refl. eauto.
Qed.

Lemma rstrip_head c a s :
  Str.rstrip c (String a s) = EmptyString
  \/ exists r, Str.rstrip c (String a s) = String a r.
Proof.
  simpl. destruct (Str.rstrip c s); [destruct (Ascii.eqb a c)|]; eauto.
Qed.

Lemma rstrip_empty c s :
  Str.rstrip c s = EmptyString -> Str.all_chars (Ascii.eqb c) s = true.
Proof.
  induction s as [|a s IH]; simpl; [done|].
  destruct (Str.rstrip c s) eqn:E; [|discriminate].
  destruct (Ascii.eqb a c) eqn:Ea; [|discriminate].
  intros _. apply Ascii.eqb_eq in Ea as ->. rewrite Ascii.eqb_refl. by apply IH.
Qed.

Lemma dirname_isabs p : PosixPath.isabs p = true -> PosixPath.isabs (PosixPath.dirname p) = true.
Proof.
  intros [s ->]%isabs_inv. unfold PosixPath.dirname, PosixPath.sep.
  destruct (rfind_first "/"%char s) as [i ->].
  change (Str.take (S i) (String "/" s)) with (String "/"%char (Str.take i s)).
  destruct (_ && negb _) eqn:E; [|apply isabs_cons].
  apply andb_true_iff in E as [_ E]. apply negb_true_iff in E.
  destruct (rstrip_head "/"%char "/"%char (Str.take i s)) as [H|[r ->]];
    [|apply isabs_cons].
  apply rstrip_empty in H. congruence.
Qed.

(** ** The path resolver *)

Lemma find_append {A} (f : A -> bool) (l1 l2 : list A) :
  find f (l1 ++ l2) = match find f l1 with Some x => Some x | None => find f l2 end.
Proof. induction l1 as [|x l1 IH]; [done|]. simpl. by destruct (f x). Qed.

Section Resolver.
Variable fs : filesystem.

(** The inner loop returns the first candidate that exists, in the
    order of candidates_from, normalised. *)
Lemma resolve_extensions_find base exts :
  resolve_extensions fs base exts
  = PosixPath.normpath <$> find (FS.path_exists fs) (candidates_from base exts).
Proof.
  induction exts as [|ext exts IH]; [done|].
  cbn [resolve_extensions candidates_from flat_map app find].
  destruct (FS.path_exists fs (base +:+ ext)); [done|].
  unfold index_candidates.
  destruct (Str.mem ext [".py"; ".js"]); cbn [app find]; [|exact IH].
  destruct (FS.path_exists fs _); [done|exact IH].
Qed.

Lemma resolve_search_paths_find bases :
  resolve_search_paths fs bases
  = PosixPath.normpath <$> find (FS.path_exists fs) (flat_map candidates bases).
Proof.
  induction bases as [|b bases IH]; [done|].
  cbn [resolve_search_paths flat_map]. rewrite resolve_extensions_find.
  fold (candidates b). rewrite find_append.
  destruct (find _ (candidates b)); [done|exact IH].
Qed.


Lemma candidates_isabs base c :
  PosixPath.isabs base = true -> In c (candidates base) -> PosixPath.isabs c = true.
Proof.
  intros Hb. unfold candidates, candidates_from. rewrite in_flat_map.
  intros (ext & _ & [<-|Hc]); [by apply isabs_append|].
  unfold index_candidates in Hc.
  destruct (Str.mem ext _); [|done]. destruct Hc as [<-|[]].
  by apply join_isabs_l.
Qed.

End Resolver.

Example resolver_two_utils :
  _resolve_absolute_import fs_two_utils "/repo" "pkg/main.py" "util"
  = Some "/repo/pkg/util.py".
Proof. reflexivity. Qed.

(** C3, as stated, fails: in fs_pkg_and_js the direct-file candidate
    /repo/pkg.js exists at base A, and the resolver returns the
    package-index candidate /repo/pkg/__init__.py of that base. *)
Lemma package_index_before_later_extensions :
  let base := base_A "/repo" "main.py" "pkg" in
  In (base +:+ ".js") (direct_candidates base)
  /\ FS.path_exists fs_pkg_and_js (base +:+ ".js") = true
  /\ _resolve_absolute_import fs_pkg_and_js "/repo" "main.py" "pkg"
     = Some (PosixPath.normpath (PosixPath.join base "__init__.py"))
  /\ In (PosixPath.join base "__init__.py") (package_candidates base)
  /\ ~ exists c, In c (direct_candidates base)
       /\ _resolve_absolute_import fs_pkg_and_js "/repo" "main.py" "pkg"
          = Some (PosixPath.normpath c).
Proof.
  repeat split.
  - vm_compute. tauto.
  - vm_compute. tauto.
  - intros (c & Hin & Heq). vm_compute in Hin, Heq.
    repeat (destruct Hin as [<-|Hin]; [discriminate|]). done.
Qed.

(** C3, amended. At a base the candidates are tried in this order, each
    package index right after the direct file of its own extension, and
    the first that exists is returned, normalised. *)
Theorem package_index_order fs base :
  resolve_extensions fs base possible_extensions
  = PosixPath.normpath <$>
      find (FS.path_exists fs)
        [ base +:+ ".py"; PosixPath.join base "__init__.py";
          base +:+ ".js"; PosixPath.join base "index.js";
          base +:+ ".tsx"; base +:+ ".jsx"; base +:+ ".ts";
          base +:+ ".java"; base +:+ ".go"; base +:+ ".tf" ].
Proof. apply resolve_extensions_find. Qed.

(** C7, as stated, fails in each of its three parts. In fs_module_dir a
    local Terraform module source resolves to a directory, not a file;
    with the repository named by a relative path the result is a
    relative path; and an import that climbs out of the repository
    resolves to a file outside it. *)
Lemma resolver_result_not_absolute_file_inside :
  (_resolve_absolute_import fs_module_dir "/repo" "main.tf" "./modules/vpc"
     = Some "/repo/modules/vpc"
   /\ FS.isfile fs_module_dir "/repo/modules/vpc" = false
   /\ FS.isdir fs_module_dir "/repo/modules/vpc" = true)
  /\ (_resolve_absolute_import fs_module_dir "repo" "main.js" "b" = Some "repo/b.py"
      /\ PosixPath.isabs "repo/b.py" = false)
  /\ (_resolve_absolute_import fs_module_dir "/repo" "main.js" "../shared/x"
        = Some "/shared/x.js"
      /\ under "/repo" "/shared/x.js" = false).
Proof. repeat split; reflexivity. Qed.

(** C7, amended. A result of the resolver is the normalised spelling of
    a path that exists, as a file or as a directory: either one of the
    candidates of base A or base B, or, for an import that starts with a
    dot, the import taken as a path from the directory of the importing
    file. It is an absolute path whenever the repository path is. *)
Theorem resolver_result_exists fs lp source_file import_name p :
  _resolve_absolute_import fs lp source_file import_name = Some p ->
  ((exists c,
      In c (candidates (base_A lp source_file import_name)
            ++ candidates (base_B lp import_name))
      /\ FS.path_exists fs c = true
      /\ p = PosixPath.normpath c)
   \/ (Str.startswith "." import_name = true
       /\ p = PosixPath.normpath
                (PosixPath.join (source_dir_of lp source_file) import_name)
       /\ FS.path_exists fs p = true))
  /\ (PosixPath.isabs lp = true -> PosixPath.isabs p = true).
Proof.
  unfold _resolve_absolute_import. rewrite resolve_search_paths_find.
  cbn [flat_map]. rewrite app_nil_r.
  assert (Hsrc : PosixPath.isabs lp = true ->
                 PosixPath.isabs (source_dir_of lp source_file) = true).
  { intros H. by apply dirname_isabs, normpath_isabs, join_isabs_l. }
  destruct (find _ _) as [c|] eqn:Hfind; cbn [fmap option_fmap option_map].
  - intros [= <-]. apply find_some in Hfind as [Hin Hc]. split.
    + left. by exists c.
    + intros Hlp. apply normpath_isabs.
      apply in_app_or in Hin as [Hin|Hin];
        (eapply candidates_isabs; [|exact Hin]); apply join_isabs_l; auto.
  - destruct (Str.startswith "." import_name) eqn:Hdot; [|done].
    destruct (FS.path_exists fs _) eqn:Hex; [|done].
    intros [= <-]. split; [by right|].
    intros Hlp. by apply normpath_isabs, join_isabs_l, Hsrc.
Qed.

Lemma resolver_result_exists_witness :
  _resolve_absolute_import fs_module_dir "/repo" "main.tf" "./modules/vpc"
    = Some "/repo/modules/vpc"
  /\ ((exists c,
        In c (candidates (base_A "/repo" "main.tf" "./modules/vpc")
              ++ candidates (base_B "/repo" "./modules/vpc"))
        /\ FS.path_exists fs_module_dir c = true
        /\ "/repo/modules/vpc" = PosixPath.normpath c)
      \/ (Str.startswith "." "./modules/vpc" = true
          /\ "/repo/modules/vpc"
             = PosixPath.normpath
                 (PosixPath.join (source_dir_of "/repo" "main.tf") "./modules/vpc")
          /\ FS.path_exists fs_module_dir "/repo/modules/vpc" = true))
     /\ (PosixPath.isabs "/repo" = true -> PosixPath.isabs "/repo/modules/vpc" = true).
Proof.
  split; [reflexivity|].
  apply (resolver_result_exists fs_module_dir "/repo" "main.tf" "./modules/vpc").
  reflexivity.
Defined.

(** ** The walks *)

(** induction on a tree, with the hypothesis for every entry of a directory *)
Lemma node_induction (P : node -> Prop) :
  (forall c, P (File c)) ->
  (forall es, Forall (fun e => P (snd e)) es -> P (Dir es)) ->
  forall n, P n.
Proof.
  intros HF HD.
  refine (fix IH (n : node) : P n :=
            match n with
            | File c => HF c
            | Dir es =>
                HD es ((fix go (l : list (string * node)) : Forall (fun e => P (snd e)) l :=
                          match l with
                          | [] => List.Forall_nil _
                          | e :: l' => List.Forall_cons _ e l' (IH (snd e)) (go l')
                          end) es)
            end).
Qed.

Lemma walk_dir keep top parts es :
  walk keep top parts (Dir es)
  = {| w_root := top; w_parts := parts;
       w_dirs := subdirs es; w_files := files_of es |}
    :: flat_map (walk_entry keep top parts) es.
Proof.
  cbn [walk]. f_equal.
  induction es as [|[name child] es IH]; [done|].
  cbn [flat_map]. rewrite <- IH. unfold walk_entry. cbn [fst snd].
  destruct child; [done|]. destruct (keep name); [done|done].
Qed.

Lemma wf_dir es :
  wf_node (Dir es) = true ->
  Forall (fun e => valid_name (fst e) = true /\ wf_node (snd e) = true) es
  /\ distinct (map fst es) = true.
Proof.
  cbn [wf_node]. rewrite !andb_true_iff. intros [[Hn Hd] Hc]. split; [|done].
  induction es as [|[name child] es IH]; [constructor|].
  cbn [forallb fst] in Hn. apply andb_true_iff in Hn as [Hn1 Hn2].
  apply andb_true_iff in Hc as [Hc1 Hc2].
  cbn [map distinct fst] in Hd. apply andb_true_iff in Hd as [_ Hd].
  constructor; [done|]. by apply IH.
Qed.

Lemma valid_name_not_abs s : valid_name s = true -> Str.startswith "/" s = false.
Proof.
  unfold valid_name. rewrite !andb_true_iff, !negb_true_iff.
  intros [[[_ H] _] _]. destruct s as [|a s]; [done|].
  cbn [Str.contains] in H. by apply orb_false_iff in H as [H _].
Qed.

Lemma join_extends top name :
  valid_name name = true -> exists t, PosixPath.join top name = top +:+ t.
Proof.
  intros H. unfold PosixPath.join. rewrite (valid_name_not_abs _ H).
  destruct (_ || _); eauto.
Qed.

Lemma append_nil_r (s : string) : s +:+ "" = s.
Proof. induction s as [|a s IH]; [done|]. rewrite append_cons. by f_equal. Qed.

(** every root the walk yields extends the path it started from *)
Lemma walk_roots keep n : forall top parts,
  wf_node n = true ->
  Forall (fun it => exists t, w_root it = top +:+ t) (walk keep top parts n).
Proof.
  induction n as [c|es IH] using node_induction; intros top parts Hwf; [constructor|].
  rewrite walk_dir. constructor; [exists ""; by rewrite append_nil_r|].
  apply wf_dir in Hwf as [Hes _].
  apply Forall_flat_map. rewrite Forall_forall in IH, Hes. apply Forall_forall.
  intros e He. destruct (Hes e He) as [Hname Hchild].
  unfold walk_entry. destruct (snd e) eqn:Hsnd; [constructor|].
  destruct (keep (fst e)); [|constructor].
  destruct (join_extends top _ Hname) as [t Ht].
  rewrite <- Hsnd. eapply Forall_impl; [apply IH; [done|by rewrite Hsnd]|].
  intros it [u ->]. exists (t +:+ u). by rewrite Ht, append_assoc.
Qed.

(** the names and files the walk yields do not depend on how the top
    directory is spelled *)
Lemma walk_top_irrelevant keep n : forall top top' parts,
  map (fun it => (w_parts it, w_files it)) (walk keep top parts n)
  = map (fun it => (w_parts it, w_files it)) (walk keep top' parts n).
Proof.
  induction n as [c|es IH] using node_induction; intros top top' parts; [done|].
  rewrite !walk_dir. cbn [map]. f_equal.
  induction es as [|e es IHes]; [done|].
  apply Forall_cons in IH as [He IH].
  cbn [flat_map]. rewrite !map_app. f_equal; [|by apply IHes].
  unfold walk_entry. destruct (snd e); [done|]. destruct (keep (fst e)); [|done].
  apply He.
Qed.

(** ** Directories the dependency pass and the histogram skip *)

Lemma assoc_In {A} k (l : list (string * A)) v : FS.assoc k l = Some v -> In (k, v) l.
Proof.
  induction l as [|[k' v'] l IH]; [done|]. cbn [FS.assoc].
  destruct (String.eqb k k') eqn:E.
  - apply String.eqb_eq in E as ->. intros [= ->]. by left.
  - intros H. right. by apply IH.
Qed.

Lemma get_wf loc : forall n m,
  wf_node n = true -> FS.get n loc = Some m -> wf_node m = true.
Proof.
  induction loc as [|x loc IH]; intros n m Hwf; cbn [FS.get].
  - by intros [= <-].
  - destruct n as [|es]; [done|].
    destruct (FS.assoc x es) as [c|] eqn:Hx; [|done].
    apply wf_dir in Hwf as [Hes _]. rewrite List.Forall_forall in Hes.
    apply assoc_In in Hx. apply Hes in Hx as [_ Hc]. by apply IH.
Qed.

Lemma locate_wf fs p n :
  wf_fs fs = true -> FS.locate fs p = Some n -> wf_node n = true.
Proof.
  unfold wf_fs, FS.locate. intros Hwf.
  destruct (negb _); [done|]. destruct (fold_left _ _ _); [|done].
  by apply get_wf.
Qed.

Lemma root_ignored_iff root :
  root_ignored root = true
  <-> exists ignored, In ignored ignored_dirs /\ Str.contains ignored root = true.
Proof. unfold root_ignored. apply existsb_exists. Qed.

Lemma root_ignored_extend root t :
  root_ignored root = true -> root_ignored (root +:+ t) = true.
Proof.
  rewrite !root_ignored_iff. intros (ign & Hin & H).
  exists ign. split; [done|]. by apply contains_extend.
Qed.

(** a walk that starts at an ignored path yields ignored roots only *)
Lemma os_walk_all_ignored fs keep lp :
  wf_fs fs = true -> root_ignored lp = true ->
  Forall (fun it => root_ignored (w_root it) = true) (os_walk fs keep lp).
Proof.
  intros Hwf Hlp. unfold os_walk.
  destruct (FS.locate fs lp) as [n|] eqn:Hn; [|constructor].
  eapply Forall_impl; [apply walk_roots; by eapply locate_wf|].
  intros it [t ->]. by apply root_ignored_extend.
Qed.

Lemma fold_skipped {S} (f : S -> walk_item -> S) items s :
  Forall (fun it => forall s, f s it = s) items -> fold_left f items s = s.
Proof.
  intros H. revert s. induction H as [|it items Hit _ IH]; intros s; [done|].
  cbn [fold_left]. by rewrite Hit.
Qed.

Lemma build_structure_locate fs fs' lp lp' deps :
  FS.locate fs lp = FS.locate fs' lp' ->
  _build_file_structure fs lp deps = _build_file_structure fs' lp' deps.
Proof.
  intros Hloc. unfold _build_file_structure, os_walk. rewrite <- Hloc.
  destruct (FS.locate fs lp) as [n|]; [|done].
  pose proof (walk_top_irrelevant structure_keep n lp lp' []) as H.
  revert H. generalize (Some ([] : pydict)).
  generalize (walk structure_keep lp [] n) (walk structure_keep lp' [] n).
  induction l as [|it l IH]; intros [|it' l'] st H; try done.
  cbn [map] in H. injection H as Hp Hf Hl. cbn [fold_left].
  unfold add_dir at 2 4. rewrite Hp, Hf. by apply IH.
Qed.

(** C9. When the repository path is unset (None or the empty string) or
    names nothing that exists, analyze_repo returns False and leaves the
    analyzer as it was: file structure and dependency map unchanged. *)
Theorem analyze_repo_missing_path fs self :
  (local_path self = None
   \/ local_path self = Some ""
   \/ exists lp, local_path self = Some lp /\ FS.path_exists fs lp = false) ->
  analyze_repo fs self = Returns false self.
Proof.
  unfold analyze_repo. intros [->|[->|(lp & -> & Hex)]]; [done|done|].
  rewrite Hex. by rewrite orb_true_r.
Qed.

Lemma analyze_repo_missing_path_witness :
  let self := {| local_path := Some "/nowhere";
                 file_structure := [("old.py", PDict [])];
                 dependencies := {["old.py" := ["/x.py"]]} |} in
  analyze_repo fs_two_utils self = Returns false self.
Proof.
  apply analyze_repo_missing_path. right. right. exists "/nowhere".
  split; reflexivity.
Defined.

Lemma path_exists_truthy fs p : FS.path_exists fs p = true -> Str.truthy p = true.
Proof.
  unfold FS.path_exists, FS.locate. by destruct (Str.truthy p).
Qed.

(** C10. The dependency pass and the file-type histogram skip a directory
    whenever a configured ignored name occurs anywhere in its walk path
    as a substring. So when the path of the repository itself contains
    one, the dependency map and the histogram are both empty, while
    analyze_repo still builds the structure: the one the same tree gives
    under any other name, with no dependencies attached. *)
Theorem ignored_substring_skips fs lp ignored :
  In ignored ignored_dirs ->
  (forall deps hist it,
      Str.contains ignored (w_root it) = true ->
      analyze_dir fs lp deps it = deps /\ count_dir hist it = hist)
  /\ (wf_fs fs = true ->
      Str.contains ignored lp = true ->
      _analyze_dependencies fs lp = ∅
      /\ _count_file_types fs lp = ∅
      /\ (forall self,
            local_path self = Some lp -> FS.path_exists fs lp = true ->
            analyze_repo fs self
            = match _build_file_structure fs lp ∅ with
              | Some s => Returns true {| local_path := Some lp;
                                          file_structure := s;
                                          dependencies := ∅ |}
              | None => Raises
              end)
      /\ (forall fs' lp',
            FS.locate fs' lp' = FS.locate fs lp ->
            _build_file_structure fs lp ∅ = _build_file_structure fs' lp' ∅)).
Proof.
  intros Hin.
  assert (Hskip : forall root, Str.contains ignored root = true ->
                               root_ignored root = true).
  { intros root H. apply root_ignored_iff. eauto. }
  split.
  - intros deps hist it H. unfold analyze_dir, count_dir. by rewrite (Hskip _ H).
  - intros Hwf Hlp.
    assert (Hdeps : _analyze_dependencies fs lp = ∅).
    { unfold _analyze_dependencies. apply fold_skipped.
      eapply Forall_impl; [apply os_walk_all_ignored; auto|].
      intros it Hit s. unfold analyze_dir. by rewrite Hit. }
    split; [exact Hdeps|]. split; [|split].
    + unfold _count_file_types. apply fold_skipped.
      eapply Forall_impl; [apply os_walk_all_ignored; auto|].
      intros it Hit s. unfold count_dir. by rewrite Hit.
    + intros self Hself Hex. unfold analyze_repo. rewrite Hself, Hex.
      rewrite (path_exists_truthy _ _ Hex). cbn [negb orb]. by rewrite Hdeps.
    + intros fs' lp' Hloc. by apply build_structure_locate.
Qed.

(** In fs_venvs the repository /home/venvs/app has venv inside a
    directory name of its path: no dependency and no extension is
    counted, though main.py imports util.py beside it; the structure
    lists the three files. *)
Lemma ignored_substring_skips_witness :
  _analyze_dependencies fs_venvs "/home/venvs/app" = ∅
  /\ _count_file_types fs_venvs "/home/venvs/app" = ∅
  /\ _build_file_structure fs_venvs "/home/venvs/app" ∅
     = Some [("main.py", PDict []); ("util.py", PDict []); ("notes.md", PDict [])].
Proof.
  destruct (ignored_substring_skips fs_venvs "/home/venvs/app" "venv") as [_ H].
  { vm_compute. tauto. }
  destruct (H eq_refl eq_refl) as (Hd & Hh & _).
  split; [exact Hd|]. split; [exact Hh|]. reflexivity.
Defined.

(** the same tree under /srv/app is analysed in full *)
Example same_tree_elsewhere :
  _analyze_dependencies fs_venvs "/srv/app" !! "main.py" = Some ["/srv/app/util.py"]
  /\ _count_file_types fs_venvs "/srv/app" !! ".py" = Some 2%nat
  /\ _count_file_types fs_venvs "/srv/app" !! ".md" = Some 1%nat.
Proof. repeat split; vm_compute; reflexivity. Qed.

(** ** The file-type histogram *)



Lemma count_with_ext_none ext files :
  (forall f, In f files -> file_ext f <> ext) -> count_with_ext ext files = 0%nat.
Proof.
  unfold count_with_ext. induction files as [|f files IH]; intros H; [done|].
  cbn [List.filter]. destruct (String.eqb_spec (file_ext f) ext) as [E|_].
  - exfalso. by apply (H f); [left|].
  - apply IH. intros g Hg. apply H. by right.
Qed.

(** ** The dependency map *)

Lemma fold_left_ext {A B} (f g : A -> B -> A) :
  (forall a x, f a x = g a x) -> forall l a, fold_left f l a = fold_left g l a.
Proof.
  intros H l. induction l as [|x l IH]; intros a; [done|].
  cbn [fold_left]. by rewrite H, IH.
Qed.

Lemma fold_left_ext_eq {A B} (f g : A -> B -> A) l a a' :
  (forall a x, f a x = g a x) -> a = a' -> fold_left f l a = fold_left g l a'.
Proof. intros H <-. by apply fold_left_ext. Qed.

Lemma dep_extend_app rel l1 l2 (d : depmap) :
  dep_extend rel l2 (dep_extend rel l1 d) = dep_extend rel (l1 ++ l2) d.
Proof. unfold dep_extend. by rewrite fold_left_app. Qed.

Lemma dep_extend_omap {A} rel (g : A -> option string) xs : forall d : depmap,
  fold_left (fun d x => match g x with
                        | Some t => dep_append rel t d
                        | None => d
                        end) xs d
  = dep_extend rel (omap g xs) d.
Proof.
  induction xs as [|x xs IH]; intros d; [done|].
  cbn [fold_left omap list_omap]. rewrite IH. by destruct (g x).
Qed.

Lemma dep_extend_map {A} rel (g : A -> string) xs : forall d : depmap,
  fold_left (fun d x => dep_append rel (g x) d) xs d = dep_extend rel (map g xs) d.
Proof.
  induction xs as [|x xs IH]; intros d; [done|]. cbn [fold_left map]. by rewrite IH.
Qed.

Lemma record_matches_tokens fs lp rel ms (d : depmap) :
  record_matches fs lp rel ms d = dep_extend rel (omap (import_token fs lp rel) ms) d.
Proof.
  unfold record_matches. rewrite <- dep_extend_omap.
  apply fold_left_ext. intros d' m. unfold import_token, resolve.
  destruct (_resolve_absolute_import fs lp rel m) as [p|]; [|done].
  by destruct (Str.truthy p).
Qed.

Lemma record_imports_tokens fs lp rel content patterns : forall d : depmap,
  record_imports fs lp rel content patterns d
  = dep_extend rel (import_tokens fs lp rel content patterns) d.
Proof.
  unfold record_imports, import_tokens.
  induction patterns as [|r patterns IH]; intros d; [done|].
  cbn [fold_left flat_map]. rewrite IH, record_matches_tokens. apply dep_extend_app.
Qed.

Lemma terraform_dependencies_tokens fs lp rel content (d : depmap) :
  _analyze_terraform_dependencies fs lp rel content d
  = dep_extend rel (terraform_tokens fs lp rel content) d.
Proof.
  unfold _analyze_terraform_dependencies, terraform_tokens.
  rewrite <- !dep_extend_app.
  unfold var_tokens, data_tokens, resource_tokens, module_tokens.
  rewrite <- !dep_extend_map, <- dep_extend_omap.
  apply fold_left_ext_eq; [done|].
  apply fold_left_ext_eq; [by intros d' [a b]|].
  apply fold_left_ext_eq; [by intros d' [a b]|].
  apply fold_left_ext_eq; [|done].
  intros d' [a b]. unfold module_token, resolve. cbn [fst snd].
  destruct (Re.search _ _) as [m|]; [|done].
  destruct (_resolve_absolute_import _ _ _ _) as [p|]; [|done].
  by destruct (Str.truthy p).
Qed.

(** one file appends its tokens, in order, to its own key *)
Lemma analyze_file_tokens fs lp parts file (d : depmap) :
  analyze_file fs lp parts file d
  = dep_extend (relpath_of parts (fst file)) (file_tokens fs lp parts file) d.
Proof.
  unfold analyze_file, file_tokens.
  destruct (_get_language_from_extension (fst file)) as [lang|]; [|done].
  destruct (snd file) as [content|]; [|done].
  rewrite record_imports_tokens.
  destruct lang; rewrite ?app_nil_r; try done.
  rewrite terraform_dependencies_tokens. apply dep_extend_app.
Qed.

Lemma dep_append_lookup rel t (d : depmap) k :
  dep_append rel t d !! k
  = if String.eqb rel k then Some (default [] (d !! k) ++ [t]) else d !! k.
Proof.
  unfold dep_append. destruct (String.eqb_spec rel k) as [->|Hne].
  - by rewrite lookup_insert_eq.
  - by rewrite lookup_insert_ne.
Qed.

Lemma dep_extend_lookup rel toks : forall (d : depmap) k,
  dep_extend rel toks d !! k
  = if String.eqb rel k
    then match toks with
         | [] => d !! k
         | _ => Some (default [] (d !! k) ++ toks)
         end
    else d !! k.
Proof.
  induction toks as [|t toks IH]; intros d k.
  - cbn. by destruct (String.eqb rel k).
  - change (dep_extend rel (t :: toks) d) with (dep_extend rel toks (dep_append rel t d)).
    rewrite IH, dep_append_lookup. destruct (String.eqb rel k); [|done].
    cbn [default]. destruct toks; [done|]. unfold id. by rewrite <- app_assoc.
Qed.

Lemma entries_lookup entries : forall (d : depmap) k,
  fold_left (fun d e => dep_extend (fst e) (snd e) d) entries d !! k
  = match tokens_at k entries with
    | [] => d !! k
    | l => Some (default [] (d !! k) ++ l)
    end.
Proof.
  unfold tokens_at.
  induction entries as [|[rel toks] entries IH]; intros d k; [done|].
  cbn [fold_left List.filter fst snd]. rewrite IH, dep_extend_lookup.
  destruct (String.eqb rel k); [|done]. cbn [map concat snd].
  destruct toks as [|t toks]; [done|]. cbn [default]. unfold id.
  destruct (concat _) eqn:E.
  - by rewrite app_nil_r.
  - cbn [app]. by rewrite <- !app_assoc, <- !app_comm_cons.
Qed.

Lemma analyze_dependencies_entries fs lp :
  _analyze_dependencies fs lp
  = fold_left (fun d e => dep_extend (fst e) (snd e) d) (scanned_tokens fs lp) ∅.
Proof.
  unfold _analyze_dependencies, scanned_tokens, scanned_files.
  generalize (∅ : depmap). induction (os_walk _ _ _) as [|it items IH]; intros d; [done|].
  cbn [fold_left flat_map]. rewrite map_app, fold_left_app, IH. f_equal.
  unfold analyze_dir. destruct (root_ignored (w_root it)); [done|].
  generalize (w_files it). clear. intros files. revert d.
  induction files as [|f files IHf]; intros d; [done|].
  cbn [fold_left map fst snd]. by rewrite IHf, analyze_file_tokens.
Qed.

Lemma file_tokens_ok fs lp parts file :
  Forall (recorded_ok fs lp (relpath_of parts (fst file))) (file_tokens fs lp parts file).
Proof.
  unfold file_tokens. set (rel := relpath_of parts (fst file)).
  destruct (_get_language_from_extension _) as [lang|]; [|constructor].
  destruct (snd file) as [content|]; [|constructor].
  apply Forall_app. split.
  - unfold import_tokens. apply Forall_flat_map, Forall_forall. intros r _.
    apply Forall_forall. intros t Ht. apply list_elem_of_omap in Ht as (m & _ & Hm).
    left. exists m. unfold import_token in Hm.
    destruct (_resolve_absolute_import fs lp rel m) as [p|]; [|done].
    destruct (Str.truthy p); by inversion Hm.
  - destruct lang; try constructor. unfold terraform_tokens.
    rewrite !Forall_app. repeat split; apply Forall_forall; intros t Ht.
    + apply list_elem_of_omap in Ht as ([name body] & _ & Hm).
      right. left. unfold module_token in Hm. cbn [fst snd] in Hm.
      destruct (Re.search _ _) as [m|]; [|done].
      destruct (_resolve_absolute_import fs lp rel m) as [p|] eqn:Hp; [|done].
      destruct (Str.truthy p); [|done]. inversion Hm. by exists name, m, p.
    + apply list_elem_of_In, in_map_iff in Ht as (b & <- & _).
      right. right. left. apply (prefix_append "resource:").
    + apply list_elem_of_In, in_map_iff in Ht as (b & <- & _).
      right. right. right. left. apply (prefix_append "data:").
    + apply list_elem_of_In, in_map_iff in Ht as (b & <- & _).
      right. right. right. right. apply (prefix_append "var:").
Qed.

Lemma dep_extend_empty rel toks : dep_extend rel toks ∅ = ∅ <-> toks = [].
Proof.
  split; [|by intros ->]. intros H.
  assert (Hk : dep_extend rel toks ∅ !! rel = None) by (by rewrite H, lookup_empty).
  rewrite dep_extend_lookup, String.eqb_refl in Hk. by destruct toks.
Qed.

Lemma tokens_at_nil k entries :
  tokens_at k entries = []
  <-> forall e, In e entries -> fst e = k -> snd e = [].
Proof.
  unfold tokens_at. induction entries as [|[rel toks] entries IH]; [done|].
  cbn [List.filter fst]. destruct (String.eqb_spec rel k) as [->|Hne].
  - cbn [map concat snd]. split.
    + intros [-> H]%app_eq_nil e [<-|He] Hk; [done|]. by apply IH.
    + intros H. assert (toks = []) as -> by (by apply (H (k, toks)); [left|]).
      cbn [app]. apply IH. intros e He. apply H. by right.
  - rewrite IH. split.
    + intros H e [<-|He]; [done|by apply H].
    + intros H e He. apply H. by right.
Qed.

Lemma tokens_at_Forall (P : string -> Prop) k entries :
  (forall e, In e entries -> fst e = k -> Forall P (snd e)) ->
  Forall P (tokens_at k entries).
Proof.
  unfold tokens_at. induction entries as [|[rel toks] entries IH]; intros H; [constructor|].
  cbn [List.filter fst]. destruct (String.eqb_spec rel k) as [->|Hne].
  - cbn [map concat snd]. apply Forall_app. split.
    + by apply (H (k, toks)); [left|].
    + apply IH. intros e He. apply H. by right.
  - apply IH. intros e He. apply H. by right.
Qed.

(** C5. Every key of the dependency map holds a list that is not empty,
    each of whose entries is a path the resolver returned for that file
    or a typed Terraform token; a key is absent exactly when every
    scanned file of that relative path records no token at all; and a
    match the resolver cannot resolve leaves the map as it was. *)
Theorem unresolved_imports_not_recorded fs lp k :
  let deps := _analyze_dependencies fs lp in
  (forall l, deps !! k = Some l -> l <> [] /\ Forall (recorded_ok fs lp k) l)
  /\ (deps !! k = None
      <-> forall parts file,
            In (parts, file) (scanned_files fs lp) ->
            relpath_of parts (fst file) = k ->
            analyze_file fs lp parts file ∅ = ∅)
  /\ (forall rel m d,
        _resolve_absolute_import fs lp rel m = None ->
        record_matches fs lp rel [m] d = d).
Proof.
  cbn zeta. rewrite analyze_dependencies_entries, entries_lookup, lookup_empty.
  split; [|split].
  - intros l Hl.
    assert (Hok : Forall (recorded_ok fs lp k) (tokens_at k (scanned_tokens fs lp))).
    { apply tokens_at_Forall. intros e He <-. unfold scanned_tokens in He.
      apply in_map_iff in He as ([parts file] & <- & _). apply file_tokens_ok. }
    destruct (tokens_at k (scanned_tokens fs lp)) as [|t l0]; [done|].
    cbn in Hl. injection Hl as <-. done.
  - transitivity (tokens_at k (scanned_tokens fs lp) = []).
    { by destruct (tokens_at k (scanned_tokens fs lp)). }
    rewrite tokens_at_nil. unfold scanned_tokens. split.
    + intros H parts file Hin Hrel. rewrite analyze_file_tokens.
      apply dep_extend_empty.
      apply (H (relpath_of parts (fst file), file_tokens fs lp parts file)); [|done].
      apply in_map_iff. by exists (parts, file).
    + intros H e He Hk. apply in_map_iff in He as ([parts file] & <- & Hin).
      cbn [fst snd] in *. specialize (H parts file Hin Hk).
      rewrite analyze_file_tokens in H. by apply dep_extend_empty in H.
  - intros rel m d Hm. unfold record_matches, resolve. cbn [fold_left]. by rewrite Hm.
Qed.

(** In fs_two_utils, pkg/main.py imports util, which resolves; util.py
    imports nothing and is absent from the map, as is a file that
    imports only what cannot be resolved. *)
Example dependency_map_two_utils :
  _analyze_dependencies fs_two_utils "/repo"
  = {[ "pkg/main.py" := ["/repo/pkg/util.py"] ]}.
Proof.
  apply map_eq. intros k.
  rewrite analyze_dependencies_entries, entries_lookup, lookup_empty.
  change (scanned_tokens fs_two_utils "/repo")
    with [("util.py", @nil string); ("pkg/main.py", ["/repo/pkg/util.py"]);
          ("pkg/util.py", [])].
  unfold tokens_at. cbn [List.filter fst].
  destruct (String.eqb_spec "util.py" k) as [<-|]; [done|].
  destruct (String.eqb_spec "pkg/main.py" k) as [<-|].
  - done.
  - destruct (String.eqb_spec "pkg/util.py" k) as [<-|]; [done|].
    by rewrite lookup_singleton_ne.
Qed.

(** ** The Terraform scenario *)

Lemma normpath_truthy p : Str.truthy (PosixPath.normpath p) = true.
Proof.
  unfold PosixPath.normpath. destruct (negb (Str.truthy p)); [done|].
  cbn zeta.
  match goal with
  | |- Str.truthy (if Str.truthy ?x then _ else _) = true =>
      by destruct (Str.truthy x) eqn:E
  end.
Qed.

Lemma resolve_truthy fs lp rel m p :
  _resolve_absolute_import fs lp rel m = Some p -> Str.truthy p = true.
Proof.
  unfold _resolve_absolute_import. rewrite resolve_search_paths_find.
  destruct (find _ _) as [c|]; cbn [fmap option_fmap option_map].
  - intros [= <-]. apply normpath_truthy.
  - destruct (Str.startswith "." m); [|done].
    destruct (FS.path_exists fs _); [|done]. intros [= <-]. apply normpath_truthy.
Qed.

Lemma import_token_resolved fs lp rel m :
  omap (import_token fs lp rel) [m] = resolved fs lp rel m.
Proof.
  unfold resolved, import_token. cbn [omap list_omap].
  destruct (_resolve_absolute_import fs lp rel m) as [p|] eqn:E; [|done].
  by rewrite (resolve_truthy _ _ _ _ _ E).
Qed.

(** what the patterns find in tf_content *)
Lemma tf_content_matches :
  map (fun r => Re.findall r tf_content) (import_patterns terraform)
    = [["./modules/vpc"]; ["vpc"]; []]
  /\ Re.findall2 module_block_re tf_content
     = [("vpc", quotes " source = $./modules/vpc$ ")]
  /\ Re.search module_source_re (quotes " source = $./modules/vpc$ ")
     = Some "./modules/vpc"
  /\ Re.findall2 resource_block_re tf_content = [("aws_vpc", "main")]
  /\ Re.findall2 data_block_re tf_content = [("aws_ami", "ubuntu")]
  /\ Re.findall var_ref_re tf_content = ["cidr_block"; "cidr_block"].
Proof. repeat split; vm_compute; reflexivity. Qed.

(** C4. A Terraform file appends to its dependency list, in this order,
    the tokens of generic import extraction, then one module token for
    every module block whose source resolves, one resource token for
    every resource block, one data token for every data block and one
    var token for every occurrence of a variable reference. For the text
    tf_content, which holds the module block vpc with source
    ./modules/vpc, the resource block aws_vpc main, the data block
    aws_ami ubuntu and var.cidr_block twice, that is: the generic tokens
    (the resolved paths of ./modules/vpc and of vpc, where they
    resolve), then one module token, present exactly when ./modules/vpc
    resolves, then one resource token, one data token and two var
    tokens. *)
Theorem terraform_scenario fs lp parts name d :
  _get_language_from_extension name = Some terraform ->
  let rel := relpath_of parts name in
  (forall content,
      analyze_file fs lp parts (name, Some content) d
      = dep_extend rel
          (import_tokens fs lp rel content (import_patterns terraform)
           ++ module_tokens fs lp rel content
           ++ resource_tokens content
           ++ data_tokens content
           ++ var_tokens content) d)
  /\ analyze_file fs lp parts (name, Some tf_content) d
     = dep_extend rel
         ((resolved fs lp rel "./modules/vpc" ++ resolved fs lp rel "vpc")
          ++ map (fun p => "module:vpc:" +:+ p) (resolved fs lp rel "./modules/vpc")
          ++ ["resource:aws_vpc:main"; "data:aws_ami:ubuntu";
              "var:cidr_block"; "var:cidr_block"]) d.
Proof.
  intros Hlang rel.
  assert (Hgen : forall content,
             analyze_file fs lp parts (name, Some content) d
             = dep_extend rel
                 (import_tokens fs lp rel content (import_patterns terraform)
                  ++ terraform_tokens fs lp rel content) d).
  { intros content. rewrite analyze_file_tokens. unfold file_tokens.
    cbn [fst snd]. by rewrite Hlang. }
  split; [exact Hgen|]. rewrite Hgen. f_equal.
  destruct tf_content_matches as (Himp & Hmod & Hsrc & Hres & Hdata & Hvar).
  f_equal.
  - unfold import_tokens.
    rewrite (flat_map_concat_map _ (import_patterns terraform)).
    rewrite <- (map_map (fun r => Re.findall r tf_content)
                        (omap (import_token fs lp rel))), Himp.
    cbn [map concat]. by rewrite !import_token_resolved, app_nil_r.
  - unfold terraform_tokens, module_tokens, resource_tokens, data_tokens, var_tokens.
    rewrite Hmod, Hres, Hdata, Hvar. cbn [map fst snd omap list_omap].
    unfold module_token. cbn [fst snd]. rewrite Hsrc. unfold resolved.
    destruct (_resolve_absolute_import fs lp rel "./modules/vpc") as [p|] eqn:E.
    + by rewrite (resolve_truthy _ _ _ _ _ E).
    + done.
Qed.

(** With the directory modules/vpc in place the module token is there,
    after the path recorded by generic import extraction. *)
Lemma terraform_scenario_witness :
  _analyze_dependencies fs_tf_with_module "/repo" !! "main.tf"
  = Some ["/repo/modules/vpc"; "module:vpc:/repo/modules/vpc";
          "resource:aws_vpc:main"; "data:aws_ami:ubuntu";
          "var:cidr_block"; "var:cidr_block"]
  /\ analyze_file fs_tf_with_module "/repo" [] ("main.tf", Some tf_content) ∅
     = dep_extend "main.tf"
         ((resolved fs_tf_with_module "/repo" "main.tf" "./modules/vpc"
           ++ resolved fs_tf_with_module "/repo" "main.tf" "vpc")
          ++ map (fun p => "module:vpc:" +:+ p)
               (resolved fs_tf_with_module "/repo" "main.tf" "./modules/vpc")
          ++ ["resource:aws_vpc:main"; "data:aws_ami:ubuntu";
              "var:cidr_block"; "var:cidr_block"]) ∅.
Proof.
  split; [vm_compute; reflexivity|].
  apply (terraform_scenario fs_tf_with_module "/repo" [] "main.tf" ∅).
  reflexivity.
Defined.

(** Without it the module token is left out and the rest stays. *)
Example terraform_scenario_without_module :
  _analyze_dependencies fs_tf_without_module "/repo" !! "main.tf"
  = Some ["resource:aws_vpc:main"; "data:aws_ami:ubuntu";
          "var:cidr_block"; "var:cidr_block"].
Proof. vm_compute. reflexivity. Qed.

(** ** C1: the two walks exclude different directories *)

(** C1 fails on the code. In fs_two_rules the structure walk leaves out
    .config (a dot directory) and keeps myvenv (no exact match), while
    the dependency walk scans .config (no ignored name inside its path)
    and skips myvenv (venv is inside its path): the dependency map has
    an entry for a file that is not in the structure, and a file of the
    structure whose import resolves has none. *)
Theorem walks_exclude_differently :
  exists st,
    analyze_repo fs_two_rules
      {| local_path := Some "/repo"; file_structure := []; dependencies := ∅ |}
    = Returns true st
    /\ dependencies st !! ".config/a.py" = Some ["/repo/.config/b.py"]
    /\ node_at (file_structure st) [".config"] = None
    /\ node_at (file_structure st) ["myvenv"]
       = Some (PDict [("a.py", PDict []); ("b.py", PDict [])])
    /\ dependencies st !! "myvenv/a.py" = None
    /\ _resolve_absolute_import fs_two_rules "/repo" "myvenv/a.py" "b"
       = Some "/repo/myvenv/b.py"
    /\ node_at (file_structure st) ["src"]
       = Some (PDict [("a.py", PDict [("dependencies", PList ["/repo/src/b.py"])]);
                      ("b.py", PDict [])])
    /\ structure_keep ".config" = false /\ root_ignored "/repo/.config" = false
    /\ structure_keep "myvenv" = true /\ root_ignored "/repo/myvenv" = true.
Proof.
  eexists. split; [vm_compute; reflexivity|].
  repeat split; vm_compute; reflexivity.
Qed.

(** ** The structure agrees with the tree *)

Lemma mem_In x l : Str.mem x l = true <-> In x l.
Proof.
  unfold Str.mem. rewrite existsb_exists. split.
  - by intros (y & Hy & ->%String.eqb_eq).
  - intros H. exists x. by rewrite String.eqb_refl.
Qed.

Lemma assoc_distinct {A} (es : list (string * A)) k v :
  distinct (map fst es) = true -> In (k, v) es -> FS.assoc k es = Some v.
Proof.
  induction es as [|[k' v'] es IH]; [done|].
  cbn [map fst distinct FS.assoc]. intros [Hk Hd]%andb_true_iff [[= -> ->]|Hin].
  - by rewrite String.eqb_refl.
  - destruct (String.eqb_spec k k') as [->|]; [|by apply IH].
    apply negb_true_iff in Hk. exfalso.
    assert (Str.mem k' (map fst es) = true); [|congruence].
    apply mem_In, in_map_iff. by exists (k', v).
Qed.

Lemma files_of_In es name c :
  In (name, c) (files_of es) <-> In (name, File c) es.
Proof.
  unfold files_of. rewrite <- list_elem_of_In, list_elem_of_omap. split.
  - intros ([k n] & Hin & H). cbn [fst snd] in H. destruct n; [|done].
    injection H as -> ->. by apply list_elem_of_In.
  - intros H. exists (name, File c). split; [by apply list_elem_of_In|done].
Qed.

Lemma get_app root p1 p2 n :
  FS.get root p1 = Some n -> FS.get root (p1 ++ p2) = FS.get n p2.
Proof.
  revert root. induction p1 as [|x p1 IH]; intros root; cbn [FS.get app].
  - by intros [= ->].
  - destruct root as [|es]; [done|]. destruct (FS.assoc x es); [apply IH|done].
Qed.

(** every directory the walk visits is found in the tree under the
    names the walk reports, and its files are the files listed there *)
Lemma walk_located keep root n : forall top parts,
  wf_node n = true -> FS.get root parts = Some n ->
  Forall (fun it => exists es, FS.get root (w_parts it) = Some (Dir es)
                               /\ wf_node (Dir es) = true
                               /\ w_files it = files_of es)
         (walk keep top parts n).
Proof.
  induction n as [c|es IH] using node_induction; intros top parts Hwf Hget; [constructor|].
  rewrite walk_dir. constructor; [by exists es|].
  pose proof (wf_dir _ Hwf) as [Hes Hd].
  apply Forall_flat_map. rewrite Forall_forall in IH, Hes. apply Forall_forall.
  intros [name child] He. destruct (Hes _ He) as [_ Hchild].
  unfold walk_entry. cbn [fst snd] in *. destruct child as [|es']; [constructor|].
  destruct (keep name); [|constructor].
  apply (IH _ He); [done|].
  rewrite (get_app _ _ _ _ Hget). cbn [FS.get].
  rewrite (assoc_distinct es name (Dir es')); [done|done|by apply list_elem_of_In].
Qed.

Lemma dict_set_Forall (P : string * pyval -> Prop) k v d :
  Forall P d -> P (k, v) -> Forall P (dict_set k v d).
Proof.
  intros Hd Hkv. induction Hd as [|[k' v'] d Hx Hd IH]; cbn [dict_set].
  - by constructor.
  - destruct (String.eqb k k'); by constructor.
Qed.

Lemma dict_set_nonempty k v d : dict_set k v d <> [].
Proof. destruct d as [|[k' v'] d]; cbn [dict_set]; [done|]. by destruct (String.eqb k k'). Qed.

Lemma set_nested_nonempty path : forall d k v d',
  set_nested_dict d path k v = Some d' -> d' <> [].
Proof.
  destruct path as [|part path]; intros d k v d'; cbn [set_nested_dict].
  - intros [= <-]. apply dict_set_nonempty.
  - destruct (FS.assoc part d) as [[|cur]|]; [done| |];
      destruct (set_nested_dict _ path k v); try done;
      intros [= <-]; apply dict_set_nonempty.
Qed.

(** storing a file at a place where the tree has a file keeps the
    structure in agreement with the tree, and raises nothing *)
Lemma set_nested_conforms path : forall es d es' name c data,
  conforms_entries es d ->
  FS.get (Dir es) path = Some (Dir es') ->
  FS.assoc name es' = Some (File c) ->
  file_shaped data ->
  exists d', set_nested_dict d path name data = Some d' /\ conforms_entries es d'.
Proof.
  induction path as [|part path IH]; intros es d es' name c data Hconf Hget Hname Hdata.
  - cbn in Hget. injection Hget as <-. eexists. split; [done|].
    apply dict_set_Forall; [done|]. exists (File c). split; [done|by constructor].
  - cbn [FS.get] in Hget. destruct (FS.assoc part es) as [child|] eqn:Hpart; [|done].
    assert (exists es1, child = Dir es1) as [es1 ->].
    { destruct child; [by destruct path|eauto]. }
    cbn [set_nested_dict].
    assert (Hsub : forall cur, conforms_entries es1 cur ->
              exists d', match set_nested_dict cur path name data with
                         | Some sub => Some (dict_set part (PDict sub) d)
                         | None => None
                         end = Some d' /\ conforms_entries es d').
    { intros cur Hcur.
      destruct (IH es1 cur es' name c data Hcur Hget Hname Hdata) as (sub & Hsub & Hs).
      rewrite Hsub. eexists. split; [done|]. apply dict_set_Forall; [done|].
      exists (Dir es1). split; [done|]. constructor; [|done].
      by eapply set_nested_nonempty. }
    destruct (FS.assoc part d) as [[l|cur]|] eqn:Hd.
    + apply assoc_In in Hd. unfold conforms_entries in Hconf.
      rewrite List.Forall_forall in Hconf. destruct (Hconf _ Hd) as (c' & Hc' & Hcf).
      cbn [fst snd] in *. rewrite Hpart in Hc'. injection Hc' as <-. inversion Hcf.
    + apply Hsub. apply assoc_In in Hd. unfold conforms_entries in Hconf.
      rewrite List.Forall_forall in Hconf. destruct (Hconf _ Hd) as (c' & Hc' & Hcf).
      cbn [fst snd] in *. rewrite Hpart in Hc'. injection Hc' as <-. by inversion Hcf.
    + apply Hsub. constructor.
Qed.

Lemma file_data_shaped deps rel : file_shaped (file_data deps rel).
Proof.
  unfold file_data, file_shaped. destruct (default [] (deps !! rel)) as [|t l] eqn:E.
  - by left.
  - right. by exists (t :: l).
Qed.

Lemma add_dir_conforms es deps it d :
  conforms_entries es d ->
  (exists es', FS.get (Dir es) (w_parts it) = Some (Dir es')
               /\ wf_node (Dir es') = true
               /\ w_files it = files_of es') ->
  exists d', add_dir deps (Some d) it = Some d' /\ conforms_entries es d'.
Proof.
  intros Hconf (es' & Hget & Hwf & Hfiles). unfold add_dir.
  assert (Hall : forall f, In f (w_files it) -> FS.assoc (fst f) es' = Some (File (snd f))).
  { intros [name c]. rewrite Hfiles, files_of_In. apply wf_dir in Hwf as [_ Hd].
    by apply assoc_distinct. }
  clear Hfiles. revert d Hconf. induction (w_files it) as [|f files IH]; intros d Hconf.
  - by exists d.
  - cbn [fold_left add_file].
    destruct (set_nested_conforms (w_parts it) es d es' (fst f) (snd f)
                (file_data deps (relpath_of (w_parts it) (fst f))))
      as (d' & -> & Hd'); [done|done|apply Hall; by left|apply file_data_shaped|].
    apply IH; [|done]. intros g Hg. apply Hall. by right.
Qed.

(** for a well-formed file system the structure pass raises nothing and
    its result agrees with the tree *)
Lemma build_conforms fs lp deps es :
  wf_fs fs = true -> FS.locate fs lp = Some (Dir es) ->
  exists d, _build_file_structure fs lp deps = Some d /\ conforms_entries es d.
Proof.
  intros Hwf Hloc. unfold _build_file_structure, os_walk. rewrite Hloc.
  pose proof (locate_wf _ _ _ Hwf Hloc) as Hes.
  pose proof (walk_located structure_keep (Dir es) (Dir es) lp [] Hes eq_refl) as Hitems.
  assert (Hnil : conforms_entries es []) by constructor.
  revert Hnil. generalize ([] : pydict).
  induction Hitems as [|it items Hit _ IH]; intros d Hd.
  - by exists d.
  - cbn [fold_left]. destruct (add_dir_conforms es deps it d Hd Hit) as (d' & -> & Hd').
    by apply IH.
Qed.

Lemma file_shaped_counts v :
  file_shaped v -> counts_as_file v = true /\ counts_as_directory v = false.
Proof. by intros [->|(l & _ & ->)]. Qed.

Lemma conforms_is_dict n v : conforms n v -> is_dict v = true.
Proof. intros [c v' [->|(l & _ & ->)]|]; done. Qed.

Lemma valid_name_truthy s : valid_name s = true -> Str.truthy s = true.
Proof. unfold valid_name. rewrite !andb_true_iff. tauto. Qed.

Lemma conforms_dir_counts es v :
  wf_node (Dir es) = true -> conforms (Dir es) v ->
  (exists d, v = PDict d /\ has_dict_child d = true)
  /\ counts_as_directory v = true /\ counts_as_file v = false.
Proof.
  intros Hwf Hc. inversion Hc as [|es' d Hne Hd]; subst.
  assert (H : has_dict_child d = true).
  { destruct d as [|[k v'] d]; [done|]. apply Forall_cons in Hd as [(c & Hk & Hv) _].
    cbn [has_dict_child existsb fst snd] in *.
    rewrite (conforms_is_dict _ _ Hv). apply wf_dir in Hwf as [Hes _].
    rewrite List.Forall_forall in Hes. apply assoc_In, Hes in Hk as [Hk _].
    cbn [fst] in Hk. by rewrite (valid_name_truthy _ Hk). }
  cbn [counts_as_directory counts_as_file]. rewrite H. eauto.
Qed.

(** a node of the structure stands for the entry of the tree that its
    path of keys names *)
Lemma node_at_conforms path : forall es d v,
  wf_node (Dir es) = true -> conforms_entries es d ->
  path <> [] -> node_at d path = Some v ->
  exists n, FS.get (Dir es) path = Some n /\ wf_node n = true /\ conforms n v.
Proof.
  induction path as [|k path IH]; intros es d v Hwf Hconf Hne Hat; [done|].
  cbn [node_at] in Hat. destruct (FS.assoc k d) as [[|d']|] eqn:Hk; try done.
  apply assoc_In in Hk. unfold conforms_entries in Hconf.
  rewrite List.Forall_forall in Hconf. destruct (Hconf _ Hk) as (c & Hc & Hcf).
  cbn [fst snd] in *. cbn [FS.get]. rewrite Hc.
  assert (Hwfc : wf_node c = true).
  { apply wf_dir in Hwf as [Hes _]. rewrite List.Forall_forall in Hes.
    by apply assoc_In, Hes in Hc as [_ Hc]. }
  destruct path as [|k2 path].
  - cbn in Hat. injection Hat as <-. by exists c.
  - inversion Hcf as [c0 v0 Hshape|es1 d1 Hne1 Hd1]; subst.
    + exfalso. destruct Hshape as [[= ->]|(l & _ & [= ->])]; [done|].
      cbn [node_at FS.assoc] in Hat. by destruct (String.eqb k2 "dependencies").
    + by apply (IH es1 d').
Qed.

Lemma pyval_induction (P : pyval -> Prop) :
  (forall l, P (PList l)) ->
  (forall d, Forall (fun kv => P (snd kv)) d -> P (PDict d)) ->
  forall v, P v.
Proof.
  intros HL HD.
  refine (fix IH (v : pyval) : P v :=
            match v with
            | PList l => HL l
            | PDict d =>
                HD d ((fix go (l : pydict) : Forall (fun kv => P (snd kv)) l :=
                         match l with
                         | [] => List.Forall_nil _
                         | kv :: l' => List.Forall_cons _ kv l' (IH (snd kv)) (go l')
                         end) d)
            end).
Qed.

Lemma count_files_cons key value d :
  _count_files (PDict ((key, value) :: d))
  = match (if counts_as_file value then Some 1%nat else _count_files value),
          _count_files (PDict d) with
    | Some a, Some b => Some (a + b)%nat
    | _, _ => None
    end.
Proof. reflexivity. Qed.

(** on a structure that agrees with the tree the counting pass meets no
    list and returns a number *)
Lemma count_files_entries d : forall es,
  Forall (fun kv => forall es', wf_node (Dir es') = true ->
                                conforms (Dir es') (snd kv) ->
                                exists k, _count_files (snd kv) = Some k) d ->
  wf_node (Dir es) = true -> conforms_entries es d ->
  exists k, _count_files (PDict d) = Some k.
Proof.
  intros es IH Hwf Hconf. induction Hconf as [|[key value] d (c & Hc & Hcf) Hd IHd].
  - by exists 0%nat.
  - apply Forall_cons in IH as [IHv IH]. cbn [fst snd] in *.
    destruct (IHd IH) as [b Hb]. rewrite count_files_cons, Hb.
    destruct c as [c|es1].
    + inversion Hcf; subst.
      destruct (file_shaped_counts value) as [-> _]; [done|]. eauto.
    + assert (Hwf1 : wf_node (Dir es1) = true).
      { apply wf_dir in Hwf as [Hes _]. rewrite List.Forall_forall in Hes.
        by apply assoc_In, Hes in Hc as [_ Hc]. }
      destruct (conforms_dir_counts es1 value Hwf1 Hcf) as (_ & _ & ->).
      destruct (IHv es1 Hwf1 Hcf) as [a ->]. eauto.
Qed.

Lemma count_files_total v : forall es,
  wf_node (Dir es) = true -> conforms (Dir es) v ->
  exists k, _count_files v = Some k.
Proof.
  induction v as [l|d IH] using pyval_induction; intros es Hwf Hc.
  - inversion Hc.
  - inversion Hc; subst. by apply (count_files_entries d es).
Qed.

(** C6, as stated, fails in its first part: in fs_dependencies_dir the
    node of the directory pkg carries the key dependencies, for its
    subdirectory of that name, and that very entry is a dict-valued
    child. *)
Lemma dependencies_key_on_directory :
  exists d,
    _build_file_structure fs_dependencies_dir "/repo" ∅
    = Some [("pkg", PDict d)]
    /\ node_at [("pkg", PDict d)] ["pkg"] = Some (PDict d)
    /\ FS.assoc "dependencies" d = Some (PDict [("a.py", PDict [])])
    /\ has_dict_child d = true.
Proof. eexists. repeat split; vm_compute; reflexivity. Qed.

(** C6, amended. For a file system with valid and distinct names the
    structure pass returns a structure in which every node stands for
    an entry of the repository: a node of a file is the empty dict or a
    dict with the single key dependencies and a list that is not empty,
    has no dict-valued child and counts as a file; a node of a directory
    has a dict-valued child and counts as a directory, whether or not it
    carries a key dependencies. Any dict with a dict-valued child counts
    as a directory, the two tests of the counting pass are each other's
    negation on dicts, and _count_files returns a number on the
    structure. *)
Theorem structure_nodes_classified fs lp deps es :
  wf_fs fs = true ->
  FS.locate fs lp = Some (Dir es) ->
  exists d,
    _build_file_structure fs lp deps = Some d
    /\ (forall path v,
          path <> [] -> node_at d path = Some v ->
          exists n,
            FS.get (Dir es) path = Some n
            /\ match n with
               | File _ =>
                   file_shaped v
                   /\ counts_as_file v = true /\ counts_as_directory v = false
               | Dir _ =>
                   (exists d', v = PDict d' /\ has_dict_child d' = true)
                   /\ counts_as_directory v = true /\ counts_as_file v = false
               end)
    /\ (forall d', has_dict_child d' = true -> counts_as_directory (PDict d') = true)
    /\ (forall d', counts_as_file (PDict d') = negb (counts_as_directory (PDict d')))
    /\ (exists k, _count_files (PDict d) = Some k).
Proof.
  intros Hwf Hloc. destruct (build_conforms fs lp deps es Hwf Hloc) as (d & Hd & Hconf).
  pose proof (locate_wf _ _ _ Hwf Hloc) as Hes.
  exists d. split; [done|]. split; [|split; [done|split; [done|]]]; cycle 1.
  { apply (count_files_entries d es); [|done|done].
    apply Forall_forall. intros kv _ es' Hwf' Hc'. by apply (count_files_total _ es'). }
  intros path v Hne Hat.
  destruct (node_at_conforms path es d v Hes Hconf Hne Hat) as (n & Hget & Hn & Hc).
  exists n. split; [done|]. destruct n as [c|es1].
  - inversion Hc; subst. split; [done|]. by apply file_shaped_counts.
  - by apply (conforms_dir_counts es1).
Qed.

Lemma structure_nodes_classified_witness :
  exists d,
    _build_file_structure fs_dependencies_dir "/repo" ∅ = Some d
    /\ (forall path v,
          path <> [] -> node_at d path = Some v ->
          exists n,
            FS.get (Dir [("pkg", Dir [("dependencies", Dir [("a.py", src "")])])]) path
            = Some n
            /\ match n with
               | File _ =>
                   file_shaped v
                   /\ counts_as_file v = true /\ counts_as_directory v = false
               | Dir _ =>
                   (exists d', v = PDict d' /\ has_dict_child d' = true)
                   /\ counts_as_directory v = true /\ counts_as_file v = false
               end)
    /\ (forall d', has_dict_child d' = true -> counts_as_directory (PDict d') = true)
    /\ (forall d', counts_as_file (PDict d') = negb (counts_as_directory (PDict d')))
    /\ (exists k, _count_files (PDict d) = Some k).
Proof.
  apply (structure_nodes_classified fs_dependencies_dir "/repo" ∅); reflexivity.
Defined.

(** ** The language classifier *)

Lemma lower_char_idem a : Str.lower_char (Str.lower_char a) = Str.lower_char a.
Proof. destruct a as [[] [] [] [] [] [] [] []]; reflexivity. Qed.

Lemma lower_char_eqb_dot a :
  Ascii.eqb (Str.lower_char a) "."%char = Ascii.eqb a "."%char.
Proof. destruct a as [[] [] [] [] [] [] [] []]; reflexivity. Qed.

Lemma lower_char_eqb_sep a :
  Ascii.eqb (Str.lower_char a) "/"%char = Ascii.eqb a "/"%char.
Proof. destruct a as [[] [] [] [] [] [] [] []]; reflexivity. Qed.

Lemma lower_idem s : Str.lower (Str.lower s) = Str.lower s.
Proof. induction s as [|a s IH]; [done|]. cbn. by rewrite lower_char_idem, IH. Qed.

Lemma rfind_lower c s :
  (forall a, Ascii.eqb (Str.lower_char a) c = Ascii.eqb a c) ->
  Str.rfind c (Str.lower s) = Str.rfind c s.
Proof.
  intros Hc. induction s as [|a s IH]; [done|].
  cbn [Str.lower Str.rfind]. by rewrite IH, Hc.
Qed.

Lemma take_lower i s : Str.take i (Str.lower s) = Str.lower (Str.take i s).
Proof.
  revert s. induction i as [|i IH]; intros [|a s]; try done.
  cbn [Str.lower Str.take]. by rewrite IH.
Qed.

Lemma drop_lower i s : Str.drop i (Str.lower s) = Str.lower (Str.drop i s).
Proof.
  revert s. induction i as [|i IH]; intros [|a s]; try done.
  cbn [Str.lower Str.drop]. by rewrite IH.
Qed.

Lemma all_dots_lower s :
  Str.all_chars (Ascii.eqb "."%char) (Str.lower s)
  = Str.all_chars (Ascii.eqb "."%char) s.
Proof.
  induction s as [|a s IH]; [done|]. cbn [Str.lower Str.all_chars].
  rewrite IH. f_equal. rewrite !(Ascii.eqb_sym "."%char). apply lower_char_eqb_dot.
Qed.

Lemma splitext_lower p :
  PosixPath.splitext_ext (Str.lower p) = Str.lower (PosixPath.splitext_ext p).
Proof.
  unfold PosixPath.splitext_ext, PosixPath.sep.
  rewrite !rfind_lower by (apply lower_char_eqb_dot || apply lower_char_eqb_sep).
  destruct (Str.rfind "." p) as [dotIndex|]; [|done].
  rewrite drop_lower, take_lower, all_dots_lower, drop_lower.
  by destruct (_ && _).
Qed.

(** X1. The classifier ignores the case of a file name: a name and its
    lowercase spelling get the same language, or both none. *)
Theorem classifier_ignores_case filename :
  _get_language_from_extension (Str.lower filename)
  = _get_language_from_extension filename.
Proof.
  unfold _get_language_from_extension. by rewrite splitext_lower, lower_idem.
Qed.

Example classifier_samples :
  _get_language_from_extension "Main.PY" = Some python
  /\ _get_language_from_extension "vars.TfVars" = Some terraform
  /\ _get_language_from_extension "App.Tsx" = Some javascript
  /\ _get_language_from_extension ".py" = None
  /\ _get_language_from_extension "Makefile" = None
  /\ _get_language_from_extension "archive.py.bak" = None.
Proof. repeat split; reflexivity. Qed.

(** ** More on the path resolver *)

Lemma find_none_iff {A} (f : A -> bool) l :
  find f l = None <-> forall x, In x l -> f x = false.
Proof.
  induction l as [|x l IH]; [done|]. cbn [find]. destruct (f x) eqn:E.
  - split; [done|]. intros H. by rewrite (H x) in E; [|left].
  - rewrite IH. split.
    + intros H y [<-|Hy]; [done|by apply H].
    + intros H y Hy. apply H. by right.
Qed.

(** X2. The resolver returns None exactly when no candidate of base A
    and of base B exists and, for an import that starts with a dot, the
    import taken as a path from the importing file's directory does not
    exist either. *)
Theorem resolver_fails_iff fs lp source_file import_name :
  _resolve_absolute_import fs lp source_file import_name = None
  <-> (forall c,
         In c (candidates (base_A lp source_file import_name)
               ++ candidates (base_B lp import_name)) ->
         FS.path_exists fs c = false)
      /\ (Str.startswith "." import_name = true ->
          FS.path_exists fs
            (PosixPath.normpath
               (PosixPath.join (source_dir_of lp source_file) import_name)) = false).
Proof.
  unfold _resolve_absolute_import. rewrite resolve_search_paths_find.
  cbn [flat_map]. rewrite app_nil_r, <- find_none_iff.
  destruct (find _ _) as [c|]; cbn [fmap option_fmap option_map].
  - split; [done|]. by intros [? _].
  - destruct (Str.startswith "." import_name); [|by split].
    destruct (FS.path_exists fs _); split; try done.
    + intros [_ H]. by specialize (H eq_refl).
Qed.

Lemma replace_dot_absolute import_name :
  Str.startswith "." import_name = true ->
  PosixPath.isabs (Str.replace "."%char PosixPath.sep import_name) = true.
Proof.
  intros [t ->]%prefix_inv. apply isabs_cons.
Qed.

(** X3. For an import that starts with a dot the dots become slashes, so
    the candidate path is absolute and os.path.join drops the base: base
    A and base B are both the import with its dots replaced, whatever
    the repository path and the importing file are. The extension loop
    then looks from the root of the file system, not inside the
    repository. *)
Theorem dot_import_bases_are_absolute lp source_file import_name :
  Str.startswith "." import_name = true ->
  let relative_path := Str.replace "."%char PosixPath.sep import_name in
  base_A lp source_file import_name = relative_path
  /\ base_B lp import_name = relative_path
  /\ PosixPath.isabs relative_path = true
  /\ forall fs,
       resolve_search_paths fs [base_A lp source_file import_name;
                                base_B lp import_name]
       = resolve_extensions fs relative_path possible_extensions.
Proof.
  intros Hdot relative_path.
  pose proof (replace_dot_absolute _ Hdot) as Habs. fold relative_path in Habs.
  assert (HA : base_A lp source_file import_name = relative_path).
  { unfold base_A, PosixPath.join. fold relative_path.
    unfold PosixPath.isabs in Habs. by rewrite Habs. }
  assert (HB : base_B lp import_name = relative_path).
  { unfold base_B, PosixPath.join. fold relative_path.
    unfold PosixPath.isabs in Habs. by rewrite Habs. }
  repeat split; try done.
  intros fs. rewrite HA, HB. cbn [resolve_search_paths].
  by destruct (resolve_extensions fs relative_path possible_extensions).
Qed.

(** In fs_module_dir /repo/main.js imports ../shared/x: the loop finds
    /shared/x.js at the root of the file system. *)
Lemma dot_import_bases_are_absolute_witness :
  base_A "/repo" "main.js" "../shared/x" = "///shared/x"
  /\ base_B "/repo" "../shared/x" = "///shared/x"
  /\ PosixPath.isabs "///shared/x" = true
  /\ forall fs,
       resolve_search_paths fs [base_A "/repo" "main.js" "../shared/x";
                                base_B "/repo" "../shared/x"]
       = resolve_extensions fs "///shared/x" possible_extensions.
Proof.
  apply (dot_import_bases_are_absolute "/repo" "main.js" "../shared/x").
  reflexivity.
Defined.

(** ** Nested dictionaries *)

Lemma assoc_dict_set_eq k v d : FS.assoc k (dict_set k v d) = Some v.
Proof.
  induction d as [|[k' v'] d IH]; cbn [dict_set FS.assoc].
  - by rewrite String.eqb_refl.
  - destruct (String.eqb k k') eqn:E; cbn [FS.assoc]; by rewrite ?String.eqb_refl, ?E.
Qed.

Lemma assoc_dict_set_ne k k' v d :
  k <> k' -> FS.assoc k' (dict_set k v d) = FS.assoc k' d.
Proof.
  intros Hne. induction d as [|[k0 v0] d IH]; cbn [dict_set FS.assoc].
  - destruct (String.eqb_spec k' k); [congruence|done].
  - destruct (String.eqb_spec k k0) as [<-|]; cbn [FS.assoc].
    + by destruct (String.eqb_spec k' k); [congruence|].
    + by rewrite IH.
Qed.

Lemma value_at_cons k path d :
  path <> [] ->
  value_at d (k :: path)
  = match FS.assoc k d with
    | Some (PDict d') => value_at d' path
    | _ => None
    end.
Proof. destruct path; [done|]. intros _. cbn [value_at]. by destruct (FS.assoc k d) as [[]|]. Qed.

Lemma value_at_single k d : value_at d [k] = FS.assoc k d.
Proof. cbn [value_at]. by destruct (FS.assoc k d) as [[]|]. Qed.

Lemma value_at_nil q : q <> [] -> value_at [] q = None.
Proof. by destruct q. Qed.

(** the dict set_nested_dict goes down into at one step of the path *)
Lemma set_nested_dict_step d part path key value d' :
  set_nested_dict d (part :: path) key value = Some d' ->
  exists cur sub,
    set_nested_dict cur path key value = Some sub
    /\ d' = dict_set part (PDict sub) d
    /\ (FS.assoc part d = Some (PDict cur)
        \/ (FS.assoc part d = None /\ cur = [])).
Proof.
  cbn [set_nested_dict]. destruct (FS.assoc part d) as [[|cur]|]; [done| |].
  - destruct (set_nested_dict cur path key value) as [sub|] eqn:E; [|done].
    intros [= <-]. exists cur, sub. eauto.
  - destruct (set_nested_dict [] path key value) as [sub|] eqn:E; [|done].
    intros [= <-]. exists [], sub. eauto.
Qed.

(** X4. What set_nested_dict stores is found again along the path and
    under the key it was stored at, and every value at a path that is
    not comparable with that place is left as it was. *)
Theorem set_nested_dict_lookup path : forall d key value d',
  set_nested_dict d path key value = Some d' ->
  value_at d' (path ++ [key]) = Some value
  /\ forall q, ~ comparable q (path ++ [key]) -> value_at d' q = value_at d q.
Proof.
  induction path as [|part path IH]; intros d key value d' Hset.
  - cbn in Hset. injection Hset as <-. split.
    + cbn [app]. by rewrite value_at_single, assoc_dict_set_eq.
    + intros [|k q] Hq; [exfalso; apply Hq; left; by eexists|].
      assert (key <> k).
      { intros ->. apply Hq. right. by exists q. }
      destruct q as [|k2 q].
      * by rewrite !value_at_single, assoc_dict_set_ne.
      * rewrite !value_at_cons by done. by rewrite assoc_dict_set_ne.
  - destruct (set_nested_dict_step _ _ _ _ _ _ Hset) as (cur & sub & Hsub & -> & Hcur).
    destruct (IH _ _ _ _ Hsub) as [Hget Hframe]. split.
    + change ((part :: path) ++ [key]) with (part :: (path ++ [key])).
      rewrite value_at_cons by (by destruct path). by rewrite assoc_dict_set_eq.
    + intros [|k q] Hq; [exfalso; apply Hq; left; by eexists|].
      destruct (String.eqb_spec part k) as [<-|Hne].
      * destruct q as [|k2 q].
        { exfalso. apply Hq. left. by exists (path ++ [key]). }
        rewrite !value_at_cons by done. rewrite assoc_dict_set_eq, Hframe.
        -- destruct Hcur as [->|[-> ->]]; [done|]. by apply value_at_nil.
        -- intros [[r Hr]|[r Hr]]; apply Hq.
           ++ left. exists r. cbn. by rewrite Hr.
           ++ right. exists r. cbn. by rewrite Hr.
      * destruct q as [|k2 q].
        -- by rewrite !value_at_single, assoc_dict_set_ne.
        -- rewrite !value_at_cons by done. by rewrite assoc_dict_set_ne.
Qed.

Lemma set_nested_dict_lookup_witness :
  value_at [("a", PDict [("x", PDict []); ("b", PDict [("f", PDict []); ("g", PDict [])])])]
           (["a"; "b"] ++ ["g"]) = Some (PDict [])
  /\ forall q, ~ comparable q (["a"; "b"] ++ ["g"]) ->
       value_at [("a", PDict [("x", PDict []); ("b", PDict [("f", PDict []); ("g", PDict [])])])] q
       = value_at [("a", PDict [("x", PDict []); ("b", PDict [("f", PDict [])])])] q.
Proof.
  apply (set_nested_dict_lookup ["a"; "b"]
           [("a", PDict [("x", PDict []); ("b", PDict [("f", PDict [])])])]
           "g" (PDict [])
           [("a", PDict [("x", PDict []);
                         ("b", PDict [("f", PDict []); ("g", PDict [])])])]).
  reflexivity.
Defined.

(** X5. set_nested_dict raises exactly when, going down the path, it
    meets a list where it needs a dict: some beginning of the path
    leads to a list. *)
Theorem set_nested_dict_fails_iff path : forall d key value,
  set_nested_dict d path key value = None
  <-> exists p r l, path = p ++ r /\ value_at d p = Some (PList l).
Proof.
  induction path as [|part path IH]; intros d key value.
  - split; [done|]. intros (p & r & l & Hp & Hl).
    symmetry in Hp. apply app_eq_nil in Hp as [-> _]. done.
  - cbn [set_nested_dict]. destruct (FS.assoc part d) as [[l|cur]|] eqn:Hd.
    + split; [|done]. intros _. exists [part], path, l. split; [done|].
      by rewrite value_at_single.
    + transitivity (set_nested_dict cur path key value = None).
      { by destruct (set_nested_dict cur path key value). }
      rewrite IH. split.
      * intros (p & r & l & -> & Hl). exists (part :: p), r, l. split; [done|].
        destruct p as [|k p]; [done|]. rewrite value_at_cons by done. by rewrite Hd.
      * intros ([|k p] & r & l & Hp & Hl); [done|]. injection Hp as <- ->.
        exists p, r, l. split; [done|]. destruct p as [|k2 p].
        -- rewrite value_at_single, Hd in Hl. done.
        -- rewrite value_at_cons in Hl by done. by rewrite Hd in Hl.
    + transitivity (set_nested_dict [] path key value = None).
      { by destruct (set_nested_dict [] path key value). }
      rewrite IH. split.
      * intros ([|k p] & r & l & _ & Hl); [done|]. by rewrite value_at_nil in Hl.
      * intros ([|k p] & r & l & Hp & Hl); [done|]. injection Hp as <- ->.
        destruct p as [|k2 p].
        -- rewrite value_at_single, Hd in Hl. done.
        -- rewrite value_at_cons in Hl by done. by rewrite Hd in Hl.
Qed.

Example set_nested_dict_through_list :
  set_nested_dict [("a.tf", PDict [("dependencies", PList ["var:x"])])]
                  ["a.tf"; "dependencies"] "f" (PDict []) = None.
Proof. reflexivity. Qed.

(** ** Adding entries below a path *)

Lemma dict_set_fresh k v d : FS.assoc k d = None -> dict_set k v d = d ++ [(k, v)].
Proof.
  induction d as [|[k' v'] d IH]; [done|]. cbn [FS.assoc dict_set].
  destruct (String.eqb k k'); [done|]. intros H. cbn [app]. by rewrite IH.
Qed.

Lemma dict_set_twice k v1 v2 d : dict_set k v2 (dict_set k v1 d) = dict_set k v2 d.
Proof.
  induction d as [|[k' v'] d IH]; cbn [dict_set].
  - by rewrite String.eqb_refl.
  - destruct (String.eqb k k') eqn:E; cbn [dict_set]; rewrite ?String.eqb_refl, ?E; [done|].
    by rewrite IH.
Qed.

Lemma assoc_app {A} k (d1 d2 : list (string * A)) :
  FS.assoc k (d1 ++ d2)
  = match FS.assoc k d1 with Some v => Some v | None => FS.assoc k d2 end.
Proof.
  induction d1 as [|[k' v'] d1 IH]; [done|]. cbn [app FS.assoc].
  by destruct (String.eqb k k').
Qed.

Lemma sub_dict_set part v d : sub_dict (dict_set part (PDict v) d) part = v.
Proof. unfold sub_dict. by rewrite assoc_dict_set_eq. Qed.

Lemma clean_nil p : clean [] p.
Proof. by destruct p. Qed.

Lemma dict_at_nil p : dict_at [] p = [].
Proof. induction p as [|k p IH]; [done|]. exact IH. Qed.

Lemma clean_sub_dict d part p : clean d (part :: p) -> clean (sub_dict d part) p.
Proof.
  cbn [clean]. unfold sub_dict.
  destruct (FS.assoc part d) as [[|cur]|]; [done|done|]. intros _. apply clean_nil.
Qed.

Lemma set_nested_graft p : forall d key v,
  clean d p -> FS.assoc key (dict_at d p) = None ->
  set_nested_dict d p key v = Some (graft d p [(key, v)]).
Proof.
  induction p as [|part p IH]; intros d key v Hc Hk.
  - cbn in *. by rewrite dict_set_fresh.
  - pose proof (IH _ key v (clean_sub_dict _ _ _ Hc) Hk) as H.
    cbn [set_nested_dict graft clean] in *. unfold sub_dict in *.
    destruct (FS.assoc part d) as [[|cur]|]; [done| |]; by rewrite H.
Qed.

Lemma graft_graft p : forall d A B, graft (graft d p A) p B = graft d p (A ++ B).
Proof.
  induction p as [|part p IH]; intros d A B; cbn [graft].
  - by rewrite app_assoc.
  - by rewrite sub_dict_set, dict_set_twice, IH.
Qed.

Lemma dict_at_graft p : forall d A, dict_at (graft d p A) p = dict_at d p ++ A.
Proof.
  induction p as [|part p IH]; intros d A; cbn [graft dict_at]; [done|].
  by rewrite sub_dict_set, IH.
Qed.

Lemma clean_graft p : forall d A, clean d p -> clean (graft d p A) p.
Proof.
  induction p as [|part p IH]; intros d A Hc; [done|].
  cbn [graft clean]. rewrite assoc_dict_set_eq. by apply IH, clean_sub_dict.
Qed.

Lemma clean_snoc p : forall d name,
  clean d p -> FS.assoc name (dict_at d p) = None ->
  clean d (p ++ [name]) /\ dict_at d (p ++ [name]) = [].
Proof.
  induction p as [|part p IH]; intros d name Hc Hk.
  - cbn in *. unfold sub_dict. by rewrite Hk.
  - destruct (IH _ name (clean_sub_dict _ _ _ Hc) Hk) as [H1 H2].
    split; [|exact H2]. cbn [app clean] in *. unfold sub_dict in *.
    by destruct (FS.assoc part d) as [[|cur]|].
Qed.

Lemma graft_snoc p : forall d name B,
  clean d p -> FS.assoc name (dict_at d p) = None ->
  graft d (p ++ [name]) B = graft d p [(name, PDict B)].
Proof.
  induction p as [|part p IH]; intros d name B Hc Hk.
  - cbn in *. unfold sub_dict. rewrite Hk. cbn [app]. by apply dict_set_fresh.
  - cbn [app graft]. by rewrite (IH _ name B (clean_sub_dict _ _ _ Hc) Hk).
Qed.

Lemma graft_some_twice p d A B :
  graft_some (graft_some d p A) p B = graft_some d p (A ++ B).
Proof.
  destruct A as [|a A]; [done|]. destruct B as [|b B].
  - by rewrite app_nil_r.
  - cbn [graft_some app]. by rewrite graft_graft.
Qed.

Lemma dict_at_graft_some p d A : dict_at (graft_some d p A) p = dict_at d p ++ A.
Proof. destruct A; [by rewrite app_nil_r|]. apply dict_at_graft. Qed.

Lemma clean_graft_some p d A : clean d p -> clean (graft_some d p A) p.
Proof. destruct A; [done|]. apply clean_graft. Qed.

(** ** The structure the pass builds *)

Lemma shape_dir deps parts es :
  shape deps parts (Dir es)
  = map (file_entry deps parts) (files_of es)
    ++ flat_map (shape_entry deps parts) es.
Proof.
  cbn [shape]. f_equal.
  induction es as [|[name child] es IH]; [done|].
  cbn [flat_map]. rewrite <- IH. unfold shape_entry. cbn [fst snd].
  destruct child as [c|es']; [done|]. destruct (structure_keep name); [|done].
  by destruct (shape deps (parts ++ [name]) (Dir es')).
Qed.

Lemma distinct_cons x l :
  distinct (x :: l) = true <-> ~ In x l /\ distinct l = true.
Proof.
  cbn [distinct]. rewrite andb_true_iff, negb_true_iff, <- mem_In.
  by destruct (Str.mem x l); intuition.
Qed.

Lemma assoc_None {A} k (l : list (string * A)) :
  FS.assoc k l = None <-> ~ In k (map fst l).
Proof.
  induction l as [|[k' v] l IH]; [by intuition|]. cbn [FS.assoc map fst In].
  destruct (String.eqb_spec k k') as [->|Hne]; [by intuition|].
  rewrite IH. intuition congruence.
Qed.

Lemma files_of_names es :
  forall name, In name (map fst (files_of es)) -> exists c, In (name, File c) es.
Proof.
  intros name ([n c] & <- & Hin)%in_map_iff. exists c. by apply files_of_In.
Qed.

Lemma files_of_distinct es :
  distinct (map fst es) = true -> distinct (map fst (files_of es)) = true.
Proof.
  induction es as [|[name [c|es']] es IH]; [done| |].
  - intros [Hn Hd]%distinct_cons. change (files_of ((name, File c) :: es))
      with ((name, c) :: files_of es). cbn [map fst]. apply distinct_cons.
    split; [|by apply IH]. intros [c' Hc]%files_of_names.
    apply Hn. apply in_map_iff. by exists (name, File c').
  - intros [_ Hd]%distinct_cons. by apply IH.
Qed.

Lemma file_entry_keys deps parts files :
  map fst (map (file_entry deps parts) files) = map fst files.
Proof. rewrite map_map. by apply map_ext. Qed.

(** the files of one directory, added to a structure that has none of
    their names there yet *)
Lemma add_files_graft deps parts files : forall S,
  clean S parts ->
  distinct (map fst files) = true ->
  (forall f, In f files -> FS.assoc (fst f) (dict_at S parts) = None) ->
  fold_left (add_file deps parts) files (Some S)
  = Some (graft_some S parts (map (file_entry deps parts) files)).
Proof.
  induction files as [|f files IH]; intros S Hc Hd Hfresh; [done|].
  cbn [fold_left add_file map fst] in *. apply distinct_cons in Hd as [Hf Hd].
  rewrite set_nested_graft; [|done|apply Hfresh; by left].
  rewrite IH; [|by apply clean_graft|done|].
  - change (graft S parts [(fst f, file_data deps (relpath_of parts (fst f)))])
      with (graft_some S parts [file_entry deps parts f]).
    by rewrite graft_some_twice.
  - intros f' Hf'. rewrite dict_at_graft, assoc_app.
    rewrite (Hfresh f'); [|by right]. cbn [FS.assoc].
    destruct (String.eqb_spec (fst f') (fst f)) as [E|]; [|done].
    exfalso. apply Hf. rewrite <- E. by apply in_map.
Qed.

Lemma shape_entry_keys deps parts e k :
  In k (map fst (shape_entry deps parts e)) -> k = fst e.
Proof.
  unfold shape_entry. destruct (snd e); [done|].
  destruct (structure_keep (fst e)); [|done].
  destruct (shape _ _ _); [done|]. by intros [<-|[]].
Qed.

(** the walk below the entries of one directory, on a structure that
    has none of their directories there yet *)
Lemma add_entries_graft deps top parts es :
  Forall (fun e => forall top parts S,
            wf_node (snd e) = true -> clean S parts -> dict_at S parts = [] ->
            fold_left (add_dir deps) (walk structure_keep top parts (snd e)) (Some S)
            = Some (graft_some S parts (shape deps parts (snd e)))) es ->
  forall S,
  Forall (fun e => wf_node (snd e) = true) es ->
  distinct (map fst es) = true ->
  clean S parts ->
  (forall name es', In (name, Dir es') es -> FS.assoc name (dict_at S parts) = None) ->
  fold_left (add_dir deps) (flat_map (walk_entry structure_keep top parts) es) (Some S)
  = Some (graft_some S parts (flat_map (shape_entry deps parts) es)).
Proof.
  induction 1 as [|[name child] es He _ IH]; intros S Hwf Hd Hc Hfresh; [done|].
  apply Forall_cons in Hwf as [Hwf1 Hwf]. cbn [map fst] in Hd.
  apply distinct_cons in Hd as [Hn Hd].
  cbn [flat_map]. rewrite fold_left_app.
  assert (Hstep : fold_left (add_dir deps)
                    (walk_entry structure_keep top parts (name, child)) (Some S)
                  = Some (graft_some S parts (shape_entry deps parts (name, child)))).
  { unfold walk_entry, shape_entry. cbn [fst snd] in *.
    destruct child as [c|es']; [done|]. destruct (structure_keep name); [|done].
    destruct (clean_snoc parts S name Hc (Hfresh _ _ (or_introl eq_refl))) as [Hc' Hat].
    rewrite He; [|done|done|done].
    destruct (shape deps (parts ++ [name]) (Dir es')) as [|b B]; [done|].
    cbn [graft_some]. apply f_equal, graft_snoc; [done|].
    by apply (Hfresh _ _ (or_introl eq_refl)). }
  rewrite Hstep, IH; [by rewrite graft_some_twice|done|done|by apply clean_graft_some|].
  intros name' es' Hin. rewrite dict_at_graft_some, assoc_app.
  rewrite (Hfresh name' es'); [|by right].
  apply assoc_None. intros Hk%shape_entry_keys. cbn [fst] in Hk. subst name'.
  apply Hn. apply in_map_iff. by exists (name, Dir es').
Qed.

(** the pass over a subtree adds the shape of the subtree at its place *)
Lemma build_subtree deps n : forall top parts S,
  wf_node n = true -> clean S parts -> dict_at S parts = [] ->
  fold_left (add_dir deps) (walk structure_keep top parts n) (Some S)
  = Some (graft_some S parts (shape deps parts n)).
Proof.
  induction n as [c|es IH] using node_induction; intros top parts S Hwf Hc Hat; [done|].
  rewrite walk_dir, shape_dir. cbn [fold_left]. unfold add_dir at 2. cbn [w_parts w_files].
  destruct (wf_dir _ Hwf) as [Hes Hd].
  rewrite add_files_graft; [|done|by apply files_of_distinct|by intros; rewrite Hat].
  rewrite (add_entries_graft deps top parts es IH).
  - by rewrite graft_some_twice.
  - eapply Forall_impl; [exact Hes|]. by intros e [_ H].
  - done.
  - by apply clean_graft_some.
  - intros name es' Hin. rewrite dict_at_graft_some, Hat. cbn [app].
    apply assoc_None. rewrite file_entry_keys. intros [c Hc']%files_of_names.
    pose proof (assoc_distinct _ _ _ Hd Hin) as H1.
    pose proof (assoc_distinct _ _ _ Hd Hc') as H2. congruence.
Qed.

Lemma graft_some_nil B : graft_some [] [] B = B.
Proof. by destruct B. Qed.

Lemma build_shape fs lp deps n :
  wf_fs fs = true -> FS.locate fs lp = Some n ->
  _build_file_structure fs lp deps = Some (shape deps [] n).
Proof.
  intros Hwf Hloc. unfold _build_file_structure, os_walk. rewrite Hloc.
  rewrite build_subtree; [by rewrite graft_some_nil|by eapply locate_wf|done|done].
Qed.

(** ** The counts of the summary *)

Lemma list_sum_cons x l : list_sum (x :: l) = (x + list_sum l)%nat.
Proof. reflexivity. Qed.

Lemma kept_files_dir es :
  kept_files (Dir es) = (length (files_of es) + list_sum (map kept_files_entry es))%nat.
Proof.
  cbn [kept_files]. f_equal.
  induction es as [|[name child] es IH]; [done|].
  cbn [map]. rewrite list_sum_cons, <- IH. unfold kept_files_entry. cbn [fst snd].
  by destruct child.
Qed.

Lemma kept_dirs_dir es :
  kept_dirs (Dir es) = list_sum (map kept_dirs_entry es).
Proof.
  cbn [kept_dirs].
  induction es as [|[name child] es IH]; [done|].
  cbn [map]. rewrite list_sum_cons, <- IH. unfold kept_dirs_entry. cbn [fst snd].
  by destruct child.
Qed.

(** the files counted are the files the walk of the structure pass yields *)
Lemma kept_files_walk n : forall top parts,
  kept_files n = length (flat_map w_files (walk structure_keep top parts n)).
Proof.
  induction n as [c|es IH] using node_induction; intros top parts; [done|].
  rewrite kept_files_dir, walk_dir. cbn [flat_map w_files].
  rewrite length_app. f_equal.
  induction es as [|e es IHes]; [done|].
  apply Forall_cons in IH as [He IH].
  cbn [map flat_map]. rewrite list_sum_cons, flat_map_app, length_app, <- IHes; [|done].
  f_equal. unfold kept_files_entry, walk_entry.
  destruct (snd e); [done|]. destruct (structure_keep (fst e)); [|done]. apply He.
Qed.

Lemma count_files_app d1 d2 :
  _count_files (PDict (d1 ++ d2))
  = match _count_files (PDict d1), _count_files (PDict d2) with
    | Some a, Some b => Some (a + b)%nat
    | _, _ => None
    end.
Proof.
  induction d1 as [|[k v] d1 IH].
  - cbn [app]. change (_count_files (PDict [])) with (Some 0%nat).
    by destruct (_count_files (PDict d2)).
  - cbn [app]. rewrite !count_files_cons, IH.
    destruct (if counts_as_file v then _ else _) as [a|]; [|done].
    destruct (_count_files (PDict d1)) as [b|]; [|done].
    destruct (_count_files (PDict d2)) as [c|]; [|done].
    f_equal. lia.
Qed.

Lemma count_directories_cons key value d :
  _count_directories (PDict ((key, value) :: d))
  = ((if counts_as_directory value then 1 + _count_directories value else 0)
     + _count_directories (PDict d))%nat.
Proof. reflexivity. Qed.

Lemma count_directories_app d1 d2 :
  _count_directories (PDict (d1 ++ d2))
  = (_count_directories (PDict d1) + _count_directories (PDict d2))%nat.
Proof.
  induction d1 as [|[k v] d1 IH]; [done|].
  cbn [app]. rewrite !count_directories_cons, IH. lia.
Qed.

Lemma file_data_counts deps rel :
  counts_as_file (file_data deps rel) = true
  /\ counts_as_directory (file_data deps rel) = false.
Proof. apply file_shaped_counts, file_data_shaped. Qed.

Lemma count_file_entries deps parts files :
  _count_files (PDict (map (file_entry deps parts) files)) = Some (length files)
  /\ _count_directories (PDict (map (file_entry deps parts) files)) = 0%nat.
Proof.
  induction files as [|f files [IH1 IH2]]; [done|].
  cbn [map length]. unfold file_entry at 1 3.
  rewrite count_files_cons, count_directories_cons, IH1, IH2.
  by destruct (file_data_counts deps (relpath_of parts (fst f))) as [-> ->].
Qed.

(** every entry of a shape is a dict under a name that is not empty *)
Lemma shape_entries deps parts n :
  wf_node n = true ->
  Forall (fun kv => is_dict (snd kv) = true /\ Str.truthy (fst kv) = true)
         (shape deps parts n).
Proof.
  destruct n as [c|es]; [constructor|]. intros Hwf.
  destruct (wf_dir _ Hwf) as [Hes _]. rewrite List.Forall_forall in Hes.
  rewrite shape_dir. apply Forall_app. split.
  - apply List.Forall_forall. intros kv ([name c] & <- & Hin)%in_map_iff.
    apply files_of_In in Hin. destruct (Hes _ Hin) as [Hname _].
    split; [|by apply valid_name_truthy].
    cbn [file_entry snd fst]. unfold file_data. by destruct (default _ _).
  - apply Forall_flat_map, List.Forall_forall. intros e He.
    destruct (Hes _ He) as [Hname _]. unfold shape_entry.
    destruct (snd e); [constructor|]. destruct (structure_keep _); [|constructor].
    destruct (shape _ _ _); [constructor|].
    constructor; [|constructor]. split; [done|by apply valid_name_truthy].
Qed.

Lemma shape_has_dict_child deps parts n :
  wf_node n = true -> shape deps parts n <> [] ->
  has_dict_child (shape deps parts n) = true.
Proof.
  intros Hwf Hne. pose proof (shape_entries deps parts n Hwf) as H.
  destruct (shape deps parts n) as [|kv d]; [done|].
  apply Forall_cons in H as [[H1 H2] _].
  cbn [has_dict_child existsb]. by rewrite H1, H2.
Qed.

(** a shape is empty exactly when no file is listed in or below the
    directory *)
Lemma shape_nil_iff deps n : forall parts,
  shape deps parts n = [] <-> kept_files n = 0%nat.
Proof.
  induction n as [c|es IH] using node_induction; intros parts; [done|].
  rewrite shape_dir, kept_files_dir.
  assert (H : flat_map (shape_entry deps parts) es = []
              <-> list_sum (map kept_files_entry es) = 0%nat).
  { induction es as [|e es IHes]; [done|].
    apply Forall_cons in IH as [He IH]. cbn [flat_map map]. rewrite list_sum_cons.
    assert (E : shape_entry deps parts e = [] <-> kept_files_entry e = 0%nat).
    { unfold shape_entry, kept_files_entry. destruct (snd e) eqn:Hs; [done|].
      destruct (structure_keep (fst e)); [|done].
      rewrite <- (He (parts ++ [fst e])).
      by destruct (shape deps (parts ++ [fst e]) (Dir entries)). }
    split.
    - intros [H1 H2]%app_eq_nil. apply E in H1. apply IHes in H2; [lia|done].
    - intros H. apply app_nil. split; [apply E; lia|apply IHes; [done|lia]]. }
  split.
  - intros [H1 H2]%app_eq_nil. apply map_eq_nil in H1. rewrite H1. cbn [length].
    by apply H.
  - intros Hz. apply app_nil. split.
    + destruct (files_of es); [done|]. cbn [length] in Hz. lia.
    + apply H. lia.
Qed.

Lemma count_files_shape deps n : forall parts,
  wf_node n = true ->
  _count_files (PDict (shape deps parts n)) = Some (kept_files n).
Proof.
  induction n as [c|es IH] using node_induction; intros parts Hwf; [done|].
  rewrite shape_dir, kept_files_dir, count_files_app.
  destruct (count_file_entries deps parts (files_of es)) as [-> _].
  destruct (wf_dir _ Hwf) as [Hes _]. clear Hwf.
  assert (H : _count_files (PDict (flat_map (shape_entry deps parts) es))
              = Some (list_sum (map kept_files_entry es))); [|by rewrite H].
  induction es as [|e es IHes]; [done|].
  apply Forall_cons in IH as [He IH]. apply Forall_cons in Hes as [[_ Hwf] Hes].
  cbn [flat_map map]. rewrite list_sum_cons, count_files_app, IHes; [|done|done].
  assert (E : _count_files (PDict (shape_entry deps parts e))
              = Some (kept_files_entry e)); [|by rewrite E].
  unfold shape_entry, kept_files_entry. destruct (snd e) eqn:Hs; [done|].
  destruct (structure_keep (fst e)); [|done].
  specialize (He (parts ++ [fst e]) Hwf).
  pose proof (shape_has_dict_child deps (parts ++ [fst e]) _ Hwf) as Hd.
  destruct (shape deps (parts ++ [fst e]) (Dir entries)) as [|b B]; [done|].
  rewrite count_files_cons. cbn [counts_as_file]. rewrite Hd; [|done].
  cbn [negb]. rewrite He. change (_count_files (PDict [])) with (Some 0%nat).
  f_equal. lia.
Qed.

Lemma count_directories_shape deps n : forall parts,
  wf_node n = true ->
  _count_directories (PDict (shape deps parts n)) = kept_dirs n.
Proof.
  induction n as [c|es IH] using node_induction; intros parts Hwf; [done|].
  rewrite shape_dir, kept_dirs_dir, count_directories_app.
  destruct (count_file_entries deps parts (files_of es)) as [_ ->].
  destruct (wf_dir _ Hwf) as [Hes _]. clear Hwf. cbn [Nat.add].
  induction es as [|e es IHes]; [done|].
  apply Forall_cons in IH as [He IH]. apply Forall_cons in Hes as [[_ Hwf] Hes].
  cbn [flat_map map]. rewrite list_sum_cons, count_directories_app, IHes; [|done|done].
  f_equal. unfold shape_entry, kept_dirs_entry. destruct (snd e) eqn:Hs; [done|].
  destruct (structure_keep (fst e)); [|done]. cbn [andb].
  specialize (He (parts ++ [fst e]) Hwf).
  pose proof (shape_has_dict_child deps (parts ++ [fst e]) _ Hwf) as Hd.
  pose proof (shape_nil_iff deps (Dir entries) (parts ++ [fst e])) as Hn.
  destruct (shape deps (parts ++ [fst e]) (Dir entries)) as [|b B].
  - rewrite (proj1 Hn eq_refl). done.
  - destruct (Nat.ltb_spec 0 (kept_files (Dir entries))) as [_|Hz].
    + rewrite count_directories_cons. cbn [counts_as_directory].
      rewrite Hd; [|done]. rewrite He.
      change (_count_directories (PDict [])) with 0%nat. lia.
    + assert (Hk : kept_files (Dir entries) = 0%nat) by lia.
      by apply Hn in Hk.
Qed.

(** ** The structure and the summary of a repository *)

(** X6. On a file system with valid and distinct names the structure
    pass never raises, and what it builds is a function of the tree
    alone: the dict of a directory lists its files first, in listing
    order, each as the empty dict or as a dict holding its dependency
    list, then, in listing order, each subdirectory that is neither
    ignored by name nor starts with a dot and whose own dict is not
    empty. A directory with no file anywhere below it is left out. When
    the path names nothing the structure is the empty dict. *)
Theorem structure_of_tree fs lp deps :
  wf_fs fs = true ->
  _build_file_structure fs lp deps
  = Some match FS.locate fs lp with
         | Some n => shape deps [] n
         | None => []
         end.
Proof.
  intros Hwf. destruct (FS.locate fs lp) as [n|] eqn:Hloc.
  - by apply build_shape.
  - unfold _build_file_structure, os_walk. by rewrite Hloc.
Qed.

Lemma structure_of_tree_witness :
  _build_file_structure fs_nested "/repo" {["src/main.py" := ["/repo/src/core/a.py"]]}
  = Some match FS.locate fs_nested "/repo" with
         | Some n => shape {["src/main.py" := ["/repo/src/core/a.py"]]} [] n
         | None => []
         end.
Proof. apply structure_of_tree. reflexivity. Defined.

(** In fs_nested: README.md first, then src with its file before its
    directory; the empty directory, the directory holding only an empty
    directory and node_modules are absent. *)
Example structure_nested :
  _build_file_structure fs_nested "/repo" {["src/main.py" := ["/repo/src/core/a.py"]]}
  = Some [("README.md", PDict []);
          ("src", PDict [("main.py",
                          PDict [("dependencies", PList ["/repo/src/core/a.py"])]);
                         ("core", PDict [("a.py", PDict []); ("b.py", PDict [])])])].
Proof. by rewrite structure_of_tree. Qed.

(** X7. On a file system with valid and distinct names, analyze_repo on
    a path that exists returns True and never raises: the dependency
    map is the one the dependency pass computes, the structure is the
    shape of the tree with that map, and whatever the analyzer held
    before is replaced. *)
Theorem analyze_repo_succeeds fs self lp n :
  wf_fs fs = true ->
  local_path self = Some lp ->
  FS.locate fs lp = Some n ->
  analyze_repo fs self
  = Returns true {| local_path := Some lp;
                    file_structure := shape (_analyze_dependencies fs lp) [] n;
                    dependencies := _analyze_dependencies fs lp |}.
Proof.
  intros Hwf Hlp Hloc. unfold analyze_repo. rewrite Hlp.
  assert (Hex : FS.path_exists fs lp = true) by (unfold FS.path_exists; by rewrite Hloc).
  rewrite Hex, (path_exists_truthy _ _ Hex). cbn [negb orb].
  by rewrite (build_shape _ _ _ _ Hwf Hloc).
Qed.

Lemma analyze_repo_succeeds_witness :
  analyze_repo fs_nested {| local_path := Some "/repo";
                            file_structure := [("stale.py", PDict [])];
                            dependencies := {["stale.py" := ["/x.py"]]} |}
  = Returns true
      {| local_path := Some "/repo";
         file_structure :=
           shape (_analyze_dependencies fs_nested "/repo") []
             (Dir [("README.md", src "");
                   ("empty", Dir []);
                   ("hollow", Dir [("inner", Dir [])]);
                   ("node_modules", Dir [("lib.js", src "")]);
                   ("src", Dir [("core", Dir [("a.py", src "import b");
                                              ("b.py", src "")]);
                                ("main.py", src "import core.a")])]);
         dependencies := _analyze_dependencies fs_nested "/repo" |}.
Proof. apply analyze_repo_succeeds; reflexivity. Defined.

(** X8. After analyze_repo on an existing path of a file system with
    valid and distinct names, generate_summary returns, and its
    file_count is the number of files the walk of the structure pass
    lists: every file in the top directory and in the directories
    reached through names that are neither ignored nor start with a
    dot, whatever its extension and whether or not it can be read. *)
Theorem summary_file_count fs self lp :
  wf_fs fs = true ->
  local_path self = Some lp ->
  FS.path_exists fs lp = true ->
  exists self' s,
    analyze_repo fs self = Returns true self'
    /\ generate_summary fs self' = Some s
    /\ file_count s = length (flat_map w_files (os_walk fs structure_keep lp))
    /\ structure s = file_structure self'
    /\ file_types s = _count_file_types fs lp.
Proof.
  intros Hwf Hlp Hex. unfold analyze_repo. rewrite Hlp.
  rewrite Hex, (path_exists_truthy _ _ Hex). cbn [negb orb].
  unfold FS.path_exists in Hex. destruct (FS.locate fs lp) as [n|] eqn:Hloc; [|done].
  rewrite (build_shape _ _ _ _ Hwf Hloc). eexists. eexists. split; [done|].
  unfold generate_summary. cbn [local_path file_structure].
  rewrite count_files_shape; [|by eapply locate_wf]. split; [done|].
  cbn [file_count structure file_types]. split; [|done].
  unfold os_walk. rewrite Hloc. apply kept_files_walk.
Qed.

Lemma summary_file_count_witness :
  exists self' s,
    analyze_repo fs_nested {| local_path := Some "/repo";
                              file_structure := [];
                              dependencies := ∅ |} = Returns true self'
    /\ generate_summary fs_nested self' = Some s
    /\ file_count s
       = length (flat_map w_files (os_walk fs_nested structure_keep "/repo"))
    /\ structure s = file_structure self'
    /\ file_types s = _count_file_types fs_nested "/repo".
Proof. apply summary_file_count; reflexivity. Defined.

(** X9. With the same assumptions, directory_count is the number of
    directories below the top that the walk of the structure pass
    reaches and that hold a listed file, themselves or further down.
    The top directory is not counted, and neither is an empty directory
    or one that holds only empty directories. *)
Theorem summary_directory_count fs self lp n :
  wf_fs fs = true ->
  local_path self = Some lp ->
  FS.locate fs lp = Some n ->
  exists self' s,
    analyze_repo fs self = Returns true self'
    /\ generate_summary fs self' = Some s
    /\ directory_count s = kept_dirs n.
Proof.
  intros Hwf Hlp Hloc. unfold analyze_repo. rewrite Hlp.
  assert (Hex : FS.path_exists fs lp = true) by (unfold FS.path_exists; by rewrite Hloc).
  rewrite Hex, (path_exists_truthy _ _ Hex). cbn [negb orb].
  rewrite (build_shape _ _ _ _ Hwf Hloc). eexists. eexists. split; [done|].
  unfold generate_summary. cbn [local_path file_structure].
  rewrite count_files_shape; [|by eapply locate_wf]. split; [done|].
  cbn [directory_count]. apply count_directories_shape. by eapply locate_wf.
Qed.

Lemma summary_directory_count_witness :
  exists self' s,
    analyze_repo fs_nested {| local_path := Some "/repo";
                              file_structure := [];
                              dependencies := ∅ |} = Returns true self'
    /\ generate_summary fs_nested self' = Some s
    /\ directory_count s
       = kept_dirs (Dir [("README.md", src "");
                         ("empty", Dir []);
                         ("hollow", Dir [("inner", Dir [])]);
                         ("node_modules", Dir [("lib.js", src "")]);
                         ("src", Dir [("core", Dir [("a.py", src "import b");
                                                    ("b.py", src "")]);
                                      ("main.py", src "import core.a")])]).
Proof. apply (summary_directory_count fs_nested _ "/repo"); reflexivity. Defined.

(** In fs_nested four files and two directories are counted: src and
    src/core, not empty, hollow, hollow/inner or node_modules. *)
Example counts_nested :
  kept_files (Dir [("README.md", src "");
                   ("empty", Dir []);
                   ("hollow", Dir [("inner", Dir [])]);
                   ("node_modules", Dir [("lib.js", src "")]);
                   ("src", Dir [("core", Dir [("a.py", src "import b");
                                              ("b.py", src "")]);
                                ("main.py", src "import core.a")])]) = 4%nat
  /\ kept_dirs (Dir [("README.md", src "");
                     ("empty", Dir []);
                     ("hollow", Dir [("inner", Dir [])]);
                     ("node_modules", Dir [("lib.js", src "")]);
                     ("src", Dir [("core", Dir [("a.py", src "import b");
                                                ("b.py", src "")]);
                                  ("main.py", src "import core.a")])]) = 2%nat.
Proof. by vm_compute. Qed.

(** ** Where a file is found in the structure *)

Lemma assoc_file_entries deps parts es name c :
  FS.assoc name es = Some (File c) ->
  FS.assoc name (map (file_entry deps parts) (files_of es))
  = Some (file_data deps (relpath_of parts name)).
Proof.
  induction es as [|[k ch] es IH]; [done|]. cbn [FS.assoc].
  destruct (String.eqb_spec name k) as [->|Hne].
  - intros [= ->]. change (files_of ((k, File c) :: es)) with ((k, c) :: files_of es).
    cbn [map file_entry fst FS.assoc]. by rewrite String.eqb_refl.
  - intros H. destruct ch as [c'|es'].
    + change (files_of ((k, File c') :: es)) with ((k, c') :: files_of es).
      cbn [map file_entry fst FS.assoc].
      destruct (String.eqb_spec name k); [done|]. by apply IH.
    + by apply IH.
Qed.

Lemma assoc_file_entries_dir deps parts es name es' :
  distinct (map fst es) = true ->
  FS.assoc name es = Some (Dir es') ->
  FS.assoc name (map (file_entry deps parts) (files_of es)) = None.
Proof.
  intros Hd Hin%assoc_In. apply assoc_None. rewrite file_entry_keys.
  intros [c Hc]%files_of_names.
  pose proof (assoc_distinct _ _ _ Hd Hin) as H1.
  pose proof (assoc_distinct _ _ _ Hd Hc) as H2. congruence.
Qed.

Lemma shape_entries_keys deps parts es k :
  In k (map fst (flat_map (shape_entry deps parts) es)) -> In k (map fst es).
Proof.
  induction es as [|e es IH]; [done|]. cbn [flat_map map].
  rewrite map_app, in_app_iff. intros [H|H].
  - left. symmetry. by eapply shape_entry_keys.
  - right. by apply IH.
Qed.

Lemma assoc_shape_entries deps parts es name es' :
  distinct (map fst es) = true ->
  FS.assoc name es = Some (Dir es') ->
  FS.assoc name (flat_map (shape_entry deps parts) es)
  = if structure_keep name then
      match shape deps (parts ++ [name]) (Dir es') with
      | [] => None
      | sub => Some (PDict sub)
      end
    else None.
Proof.
  induction es as [|[k ch] es IH]; [done|].
  cbn [map fst]. intros [Hk Hd]%distinct_cons.
  cbn [flat_map FS.assoc]. rewrite assoc_app.
  destruct (String.eqb_spec name k) as [->|Hne].
  - intros [= ->]. unfold shape_entry. cbn [fst snd].
    assert (Hrest : FS.assoc k (flat_map (shape_entry deps parts) es) = None).
    { apply assoc_None. by intros H%shape_entries_keys. }
    destruct (structure_keep k); [|done].
    destruct (shape deps (parts ++ [k]) (Dir es')) as [|b B]; [done|].
    cbn [FS.assoc]. by rewrite String.eqb_refl.
  - intros H. rewrite (IH Hd H).
    assert (Hhead : FS.assoc name (shape_entry deps parts (k, ch)) = None).
    { apply assoc_None. intros Hin%shape_entry_keys. by cbn [fst] in Hin. }
    by rewrite Hhead.
Qed.

(** a listed file is found along its path exactly when every directory
    on the way is kept *)
Lemma shape_value_at deps name c dirs : forall n parts,
  wf_node n = true ->
  FS.get n (dirs ++ [name]) = Some (File c) ->
  value_at (shape deps parts n) (dirs ++ [name])
  = if forallb structure_keep dirs
    then Some (file_data deps (relpath_of (parts ++ dirs) name))
    else None.
Proof.
  induction dirs as [|d dirs IH]; intros n parts Hwf Hget.
  - destruct n as [c'|es]; [done|]. cbn [app FS.get] in Hget.
    destruct (FS.assoc name es) as [ch|] eqn:Hname; [|done].
    cbn in Hget. injection Hget as ->.
    cbn [app forallb]. rewrite value_at_single, shape_dir, assoc_app, app_nil_r.
    by rewrite (assoc_file_entries deps parts es name c Hname).
  - destruct n as [c'|es]; [done|]. cbn [app FS.get] in Hget.
    destruct (FS.assoc d es) as [ch|] eqn:Hd; [|done].
    destruct ch as [c'|es']; [by destruct dirs|].
    destruct (wf_dir _ Hwf) as [Hes Hdist]. rewrite List.Forall_forall in Hes.
    destruct (Hes _ (assoc_In _ _ _ Hd)) as [_ Hwf']. cbn [snd] in Hwf'.
    specialize (IH (Dir es') (parts ++ [d]) Hwf' Hget).
    cbn [app]. rewrite value_at_cons; [|by destruct dirs].
    rewrite shape_dir, assoc_app.
    rewrite (assoc_file_entries_dir deps parts es d es' Hdist Hd).
    rewrite (assoc_shape_entries deps parts es d es' Hdist Hd).
    cbn [forallb]. destruct (structure_keep d); [|done]. cbn [andb].
    rewrite <- app_assoc in IH. cbn [app] in IH. rewrite <- IH.
    destruct (shape deps (parts ++ [d]) (Dir es')); [|done].
    symmetry. apply value_at_nil. by destruct dirs.
Qed.

(** X10. In the structure built for a file system with valid and
    distinct names, a file of the repository is found by going down the
    names of its directories and then its own name exactly when every
    one of those directories is kept, that is, neither ignored by name
    nor starting with a dot; what is found is the empty dict when the
    dependency map has no list or an empty list under the relative path
    of the file, and otherwise a dict holding that list under the key
    dependencies. *)
Theorem structure_holds_listed_files fs lp deps n dirs name c :
  wf_fs fs = true ->
  FS.locate fs lp = Some n ->
  FS.get n (dirs ++ [name]) = Some (File c) ->
  exists S,
    _build_file_structure fs lp deps = Some S
    /\ value_at S (dirs ++ [name])
       = if forallb structure_keep dirs
         then Some (match default [] (deps !! relpath_of dirs name) with
                    | [] => PDict []
                    | file_deps => PDict [("dependencies", PList file_deps)]
                    end)
         else None.
Proof.
  intros Hwf Hloc Hget. exists (shape deps [] n). split; [by apply build_shape|].
  apply (shape_value_at deps name c dirs n []); [by eapply locate_wf|done].
Qed.

Lemma structure_holds_listed_files_witness :
  exists S,
    _build_file_structure fs_nested "/repo" {["src/core/a.py" := ["/repo/src/core/b.py"]]}
    = Some S
    /\ value_at S (["src"; "core"] ++ ["a.py"])
       = if forallb structure_keep ["src"; "core"]
         then Some (match default [] (({["src/core/a.py" := ["/repo/src/core/b.py"]]}
                                        : depmap)
                                      !! relpath_of ["src"; "core"] "a.py") with
                    | [] => PDict []
                    | file_deps => PDict [("dependencies", PList file_deps)]
                    end)
         else None.
Proof.
  eapply (structure_holds_listed_files fs_nested "/repo" _ _ ["src"; "core"] "a.py");
    reflexivity.
Defined.

(** X11. The list the dependency pass stores for a relative path is the
    concatenation, in the order of the walk, of what each scanned file
    of that path contributes, and a file contributes, in this order, its
    resolved import matches pattern by pattern and, for Terraform, its
    module, resource, data and var tokens, one for every match, repeated
    ones included; a path for which nothing is contributed is not a key. *)
Theorem dependency_list_in_scan_order fs lp k :
  _analyze_dependencies fs lp !! k
  = match tokens_at k (scanned_tokens fs lp) with
    | [] => None
    | l => Some l
    end.
Proof.
  rewrite analyze_dependencies_entries, entries_lookup, lookup_empty.
  by destruct (tokens_at k (scanned_tokens fs lp)).
Qed.

(** ** Reading the Terraform tokens back *)

Lemma contains_colon_cons c s :
  Str.contains ":" (String c s) = Ascii.eqb c ":" || Str.contains ":" s.
Proof.
  cbn [Str.contains]. rewrite prefix_cons, prefix_nil.
  destruct (ascii_dec ":" c) as [<-|Hne]; [done|].
  destruct (Ascii.eqb_spec c ":"); [congruence|done].
Qed.

(** the first field ends at the first colon *)
Lemma split_max_field a rest m :
  Str.contains ":" a = false ->
  split_max ":" (a +:+ ":" +:+ rest) (S m) = a :: split_max ":" rest m.
Proof.
  induction a as [|c a IH]; [done|].
  rewrite contains_colon_cons. intros [Hc Ha]%orb_false_iff.
  rewrite append_cons. cbn [split_max]. by rewrite Hc, (IH Ha).
Qed.

Lemma split_max_whole s m : Str.contains ":" s = false -> split_max ":" s m = [s].
Proof.
  destruct m as [|m]; [by destruct s|].
  induction s as [|c s IH]; [done|].
  rewrite contains_colon_cons. intros [Hc Hs]%orb_false_iff.
  cbn [split_max]. by rewrite Hc, (IH Hs).
Qed.

(** a text with a colon, cut at its first colon *)
Lemma first_colon s :
  Str.contains ":" s = true ->
  exists a b, s = a +:+ ":" +:+ b /\ Str.contains ":" a = false.
Proof.
  induction s as [|c s IH]; [done|]. rewrite contains_colon_cons.
  destruct (Ascii.eqb_spec c ":") as [->|Hne].
  - intros _. by exists "", s.
  - intros (a & b & -> & Ha)%IH. exists (String c a), b. split; [done|].
    rewrite contains_colon_cons, Ha. by destruct (Ascii.eqb_spec c ":").
Qed.

Lemma split_max_0 sep s : split_max sep s 0 = [s].
Proof. by destruct s. Qed.

Lemma unpack3_tagged tag a rest :
  Str.contains ":" tag = false -> Str.contains ":" a = false ->
  unpack3 (tag +:+ ":" +:+ a +:+ ":" +:+ rest) = Some (a, rest).
Proof.
  intros Ht Ha. unfold unpack3.
  by rewrite (split_max_field tag _ 1 Ht), (split_max_field a _ 0 Ha), split_max_0.
Qed.

Lemma unpack3_short tag rest :
  Str.contains ":" tag = false -> Str.contains ":" rest = false ->
  unpack3 (tag +:+ ":" +:+ rest) = None.
Proof.
  intros Ht Hr. unfold unpack3.
  by rewrite (split_max_field tag _ 1 Ht), (split_max_whole rest 1 Hr).
Qed.

(** X12. The summary reads a tagged token back by cutting at the first
    two colons: of a module, resource or data token written as tag,
    colon, name, colon, rest it takes as name the text up to the first
    colon after the tag and as value everything after the next colon.
    So what _analyze_terraform_dependencies wrote is read back unchanged
    whenever the module name or the resource or data type holds no
    colon, colons in the module path or in the trailing name do no
    harm, and a var token gives back its name whatever it holds. *)
Theorem terraform_tokens_read_back st a rest :
  Str.contains ":" a = false ->
  collect_dep st ("module:" +:+ a +:+ ":" +:+ rest)
  = Some {| modules := assoc_set a rest (modules st);
            resources := resources st;
            data_sources := data_sources st;
            variables := variables st |}
  /\ collect_dep st ("resource:" +:+ a +:+ ":" +:+ rest)
     = Some {| modules := modules st;
               resources := assoc_set a (default [] (FS.assoc a (resources st)) ++ [rest])
                              (resources st);
               data_sources := data_sources st;
               variables := variables st |}
  /\ collect_dep st ("data:" +:+ a +:+ ":" +:+ rest)
     = Some {| modules := modules st;
               resources := resources st;
               data_sources :=
                 assoc_set a (default [] (FS.assoc a (data_sources st)) ++ [rest])
                   (data_sources st);
               variables := variables st |}
  /\ collect_dep st ("var:" +:+ rest)
     = Some {| modules := modules st;
               resources := resources st;
               data_sources := data_sources st;
               variables := {[ rest ]} ∪ variables st |}.
Proof.
  intros Ha. unfold collect_dep. repeat split.
  - rewrite (prefix_append "module:").
    by rewrite (unpack3_tagged "module" a rest eq_refl Ha
                  : unpack3 ("module:" +:+ a +:+ ":" +:+ rest) = _).
  - change (Str.startswith "module:" ("resource:" +:+ a +:+ ":" +:+ rest)) with false.
    rewrite (prefix_append "resource:").
    by rewrite (unpack3_tagged "resource" a rest eq_refl Ha
                  : unpack3 ("resource:" +:+ a +:+ ":" +:+ rest) = _).
  - change (Str.startswith "module:" ("data:" +:+ a +:+ ":" +:+ rest)) with false.
    change (Str.startswith "resource:" ("data:" +:+ a +:+ ":" +:+ rest)) with false.
    rewrite (prefix_append "data:").
    by rewrite (unpack3_tagged "data" a rest eq_refl Ha
                  : unpack3 ("data:" +:+ a +:+ ":" +:+ rest) = _).
  - change (Str.startswith "module:" ("var:" +:+ rest)) with false.
    change (Str.startswith "resource:" ("var:" +:+ rest)) with false.
    change (Str.startswith "data:" ("var:" +:+ rest)) with false.
    rewrite (prefix_append "var:").
    change ("var:" +:+ rest) with ("var" +:+ ":" +:+ rest).
    by rewrite (split_max_field "var" rest 0 eq_refl), split_max_0.
Qed.

Lemma terraform_tokens_read_back_witness :
  collect_dep no_components ("module:" +:+ "vpc" +:+ ":" +:+ "/repo/modules/vpc")
  = Some {| modules := assoc_set "vpc" "/repo/modules/vpc" (modules no_components);
            resources := resources no_components;
            data_sources := data_sources no_components;
            variables := variables no_components |}
  /\ collect_dep no_components ("resource:" +:+ "vpc" +:+ ":" +:+ "/repo/modules/vpc")
     = Some {| modules := modules no_components;
               resources :=
                 assoc_set "vpc"
                   (default [] (FS.assoc "vpc" (resources no_components))
                    ++ ["/repo/modules/vpc"])
                   (resources no_components);
               data_sources := data_sources no_components;
               variables := variables no_components |}
  /\ collect_dep no_components ("data:" +:+ "vpc" +:+ ":" +:+ "/repo/modules/vpc")
     = Some {| modules := modules no_components;
               resources := resources no_components;
               data_sources :=
                 assoc_set "vpc"
                   (default [] (FS.assoc "vpc" (data_sources no_components))
                    ++ ["/repo/modules/vpc"])
                   (data_sources no_components);
               variables := variables no_components |}
  /\ collect_dep no_components ("var:" +:+ "/repo/modules/vpc")
     = Some {| modules := modules no_components;
               resources := resources no_components;
               data_sources := data_sources no_components;
               variables := {[ "/repo/modules/vpc" ]} ∪ variables no_components |}.
Proof. apply (terraform_tokens_read_back no_components "vpc"). reflexivity. Defined.

(** A module named a:b is read back as the module a with the source
    b:/repo/m, and a resource of type aws:vpc as the type aws. *)
Example colon_in_name_read_back :
  collect_dep no_components ("module:" +:+ "a:b" +:+ ":" +:+ "/repo/m")
  = Some {| modules := [("a", "b:/repo/m")]; resources := [];
            data_sources := []; variables := ∅ |}
  /\ collect_dep no_components ("resource:" +:+ "aws:vpc" +:+ ":" +:+ "main")
     = Some {| modules := []; resources := [("aws", ["vpc:main"])];
               data_sources := []; variables := ∅ |}.
Proof. split; reflexivity. Qed.

(** X13. Reading a token back raises (ValueError) exactly when the
    token is module, resource or data, a colon, and a text without any
    colon: the three-way unpacking of the split then has two fields
    only. A var token and a token that starts with none of the four
    tags never raise. *)
Theorem collect_dep_fails_iff st dep :
  collect_dep st dep = None
  <-> exists tag rest,
        In tag ["module"; "resource"; "data"]
        /\ dep = tag +:+ ":" +:+ rest
        /\ Str.contains ":" rest = false.
Proof.
  assert (Hun : forall tag t, Str.contains ":" tag = false ->
                  unpack3 (tag +:+ ":" +:+ t) = None -> Str.contains ":" t = false).
  { intros tag t Htag Hnone. destruct (Str.contains ":" t) eqn:Ht; [|done].
    destruct (first_colon t Ht) as (a & b & -> & Ha).
    by rewrite (unpack3_tagged tag a b Htag Ha) in Hnone. }
  split.
  - unfold collect_dep.
    destruct (Str.startswith "module:" dep) eqn:H1.
    { apply prefix_inv in H1 as [t ->]. intros H. exists "module", t.
      split; [by left|]. split; [done|]. apply (Hun "module" t eq_refl).
      by destruct (unpack3 _) as [[]|]. }
    destruct (Str.startswith "resource:" dep) eqn:H2.
    { apply prefix_inv in H2 as [t ->]. intros H. exists "resource", t.
      split; [by right; left|]. split; [done|]. apply (Hun "resource" t eq_refl).
      by destruct (unpack3 _) as [[]|]. }
    destruct (Str.startswith "data:" dep) eqn:H3.
    { apply prefix_inv in H3 as [t ->]. intros H. exists "data", t.
      split; [by right; right; left|]. split; [done|]. apply (Hun "data" t eq_refl).
      by destruct (unpack3 _) as [[]|]. }
    destruct (Str.startswith "var:" dep) eqn:H4; [|done].
    apply prefix_inv in H4 as [t ->].
    change ("var:" +:+ t) with ("var" +:+ ":" +:+ t).
    by rewrite (split_max_field "var" t 0 eq_refl), split_max_0.
  - intros (tag & rest & Htag & -> & Hrest). unfold collect_dep.
    destruct Htag as [<-|[<-|[<-|[]]]].
    + rewrite (prefix_append "module:" rest
               : Str.startswith "module:" ("module" +:+ ":" +:+ rest) = true).
      by rewrite (unpack3_short "module" rest eq_refl Hrest).
    + change (Str.startswith "module:" ("resource" +:+ ":" +:+ rest)) with false.
      rewrite (prefix_append "resource:" rest
               : Str.startswith "resource:" ("resource" +:+ ":" +:+ rest) = true).
      by rewrite (unpack3_short "resource" rest eq_refl Hrest).
    + change (Str.startswith "module:" ("data" +:+ ":" +:+ rest)) with false.
      change (Str.startswith "resource:" ("data" +:+ ":" +:+ rest)) with false.
      rewrite (prefix_append "data:" rest
               : Str.startswith "data:" ("data" +:+ ":" +:+ rest) = true).
      by rewrite (unpack3_short "data" rest eq_refl Hrest).
Qed.

(** ** The files reported with their dependencies *)

Lemma join_snoc sep parts name :
  parts <> [] -> Str.join sep (parts ++ [name]) = Str.join sep parts +:+ sep +:+ name.
Proof.
  induction parts as [|p parts IH]; [done|]. intros _.
  destruct parts as [|q parts]; [done|].
  change (Str.join sep ((p :: q :: parts) ++ [name]))
    with (p +:+ sep +:+ Str.join sep ((q :: parts) ++ [name])).
  rewrite IH; [|done].
  change (Str.join sep (p :: q :: parts)) with (p +:+ sep +:+ Str.join sep (q :: parts)).
  by rewrite !append_assoc.
Qed.

Lemma endswith_char_append c a b :
  Str.truthy b = true -> Str.endswith_char c (a +:+ b) = Str.endswith_char c b.
Proof.
  intros Hb. induction a as [|x a IH]; [done|].
  rewrite append_cons. cbn [Str.endswith_char]. rewrite IH.
  destruct (a +:+ b) eqn:E; [|done]. destruct a; [|done].
  change (b = "") in E. by rewrite E in Hb.
Qed.

Lemma endswith_slash_contains s :
  Str.contains "/" s = false -> Str.endswith_char "/" s = false.
Proof.
  induction s as [|x s IH]; [done|]. cbn [Str.contains]. rewrite prefix_cons, prefix_nil.
  intros [Hx Hs]%orb_false_iff. cbn [Str.endswith_char]. rewrite (IH Hs).
  destruct s; [|done]. destruct (Ascii.eqb_spec x "/") as [->|]; [|done].
  by destruct (ascii_dec "/" "/").
Qed.

Lemma valid_name_no_slash s : valid_name s = true -> Str.contains "/" s = false.
Proof.
  unfold valid_name. rewrite !andb_true_iff, !negb_true_iff. tauto.
Qed.

Lemma truthy_append a b : Str.truthy a = true -> Str.truthy (a +:+ b) = true.
Proof. by destruct a. Qed.

(** a path of valid names, joined by slashes, is not empty and does not
    end in a slash *)
Lemma join_names parts :
  parts <> [] -> Forall (fun p => valid_name p = true) parts ->
  Str.truthy (Str.join "/" parts) = true
  /\ Str.endswith_char "/" (Str.join "/" parts) = false.
Proof.
  induction parts as [|p parts IH]; [done|]. intros _ [Hp Hps]%Forall_cons.
  destruct parts as [|q parts].
  - split; [by apply valid_name_truthy|].
    by apply endswith_slash_contains, valid_name_no_slash.
  - destruct (IH ltac:(done) Hps) as [IH1 IH2].
    change (Str.join "/" (p :: q :: parts)) with (p +:+ "/" +:+ Str.join "/" (q :: parts)).
    split; [by apply truthy_append, valid_name_truthy|].
    rewrite endswith_char_append; [|by apply (truthy_append "/")].
    by rewrite (endswith_char_append _ "/").
Qed.

(** os.path.join along the structure spells the relative path *)
Lemma join_relpath parts name :
  Forall (fun p => valid_name p = true) parts -> valid_name name = true ->
  PosixPath.join (Str.join "/" parts) name = relpath_of parts name.
Proof.
  intros Hps Hname. unfold PosixPath.join, relpath_of.
  rewrite (valid_name_not_abs _ Hname).
  destruct parts as [|p parts]; [done|].
  destruct (join_names (p :: parts) ltac:(done) Hps) as [H1 H2].
  unfold PosixPath.sep. rewrite H1, H2. cbn [negb orb]. by rewrite join_snoc.
Qed.

Lemma collect_deps_cons key value d path :
  collect_deps (PDict ((key, value) :: d)) path
  = match value with
    | PDict vd =>
        match FS.assoc "dependencies" vd with
        | Some stored => [(PosixPath.join path key, py_len stored)]
        | None =>
            if any_dict_value vd then collect_deps value (PosixPath.join path key)
            else []
        end
    | PList _ => []
    end ++ collect_deps (PDict d) path.
Proof. reflexivity. Qed.

Lemma collect_deps_app d1 d2 path :
  collect_deps (PDict (d1 ++ d2)) path
  = collect_deps (PDict d1) path ++ collect_deps (PDict d2) path.
Proof.
  induction d1 as [|[k v] d1 IH]; [done|].
  cbn [app]. by rewrite !collect_deps_cons, IH, app_assoc.
Qed.

Lemma collect_file_entries deps parts files :
  Forall (fun p => valid_name p = true) parts ->
  Forall (fun f => valid_name (fst f) = true) files ->
  collect_deps (PDict (map (file_entry deps parts) files)) (Str.join "/" parts)
  = omap (reported deps) (map (fun f => (parts, f)) files).
Proof.
  intros Hps. induction 1 as [|f files Hf _ IH]; [done|].
  cbn [map omap list_omap]. unfold file_entry at 1. rewrite collect_deps_cons, IH.
  rewrite (join_relpath parts (fst f) Hps Hf).
  change (reported deps (parts, f))
    with (match default [] (deps !! relpath_of parts (fst f)) with
          | [] => None
          | l => Some (relpath_of parts (fst f), length l)
          end).
  unfold file_data. by destruct (default [] (deps !! relpath_of parts (fst f))).
Qed.

Lemma plain_dir es :
  plain (Dir es) = true ->
  ~ In "dependencies" (map fst es)
  /\ Forall (fun e => structure_keep (fst e) = true -> plain (snd e) = true) es.
Proof.
  cbn [plain]. rewrite andb_true_iff, negb_true_iff. intros [Hn Hall]. split.
  - intros H%mem_In. congruence.
  - clear Hn. induction es as [|[name child] es IH]; [constructor|].
    apply andb_true_iff in Hall as [H1 H2]. constructor; [|by apply IH].
    cbn [fst snd]. intros Hk. by rewrite Hk in H1.
Qed.

Lemma shape_keys deps parts es k :
  In k (map fst (shape deps parts (Dir es))) -> In k (map fst es).
Proof.
  rewrite shape_dir, map_app, in_app_iff, file_entry_keys. intros [H|H].
  - destruct (files_of_names es k H) as [c Hc]. apply in_map_iff. by exists (k, File c).
  - by eapply shape_entries_keys.
Qed.

Lemma shape_any_dict deps parts n :
  wf_node n = true -> shape deps parts n <> [] ->
  any_dict_value (shape deps parts n) = true.
Proof.
  intros Hwf Hne. pose proof (shape_entries deps parts n Hwf) as H.
  destruct (shape deps parts n) as [|kv d]; [done|].
  apply Forall_cons in H as [[H1 _] _]. cbn [any_dict_value existsb]. by rewrite H1.
Qed.

(** the reports for a subtree are those of its listed files, in the
    order of the walk *)
Lemma collect_subtree deps n : forall top parts,
  wf_node n = true -> plain n = true ->
  Forall (fun p => valid_name p = true) parts ->
  collect_deps (PDict (shape deps parts n)) (Str.join "/" parts)
  = omap (reported deps)
      (flat_map (fun it => map (fun f => (w_parts it, f)) (w_files it))
                (walk structure_keep top parts n)).
Proof.
  induction n as [c|es IH] using node_induction; intros top parts Hwf Hplain Hps; [done|].
  rewrite shape_dir, walk_dir, collect_deps_app. cbn [flat_map w_parts w_files].
  rewrite omap_app. destruct (wf_dir _ Hwf) as [Hes _].
  destruct (plain_dir _ Hplain) as [_ Hpl]. f_equal.
  { apply collect_file_entries; [done|].
    apply List.Forall_forall. intros [name c] Hin%files_of_In.
    rewrite List.Forall_forall in Hes. by destruct (Hes _ Hin). }
  clear Hwf Hplain.
  induction es as [|e es IHes]; [done|].
  apply Forall_cons in IH as [He IH]. apply Forall_cons in Hes as [[Hname Hwf] Hes].
  apply Forall_cons in Hpl as [Hp Hpl].
  cbn [flat_map]. rewrite collect_deps_app, flat_map_app, omap_app.
  rewrite (IHes IH Hes Hpl). f_equal.
  unfold shape_entry, walk_entry. destruct (snd e) as [c|es'] eqn:Hs; [done|].
  destruct (structure_keep (fst e)) eqn:Hkeep; [|done].
  assert (Hps' : Forall (fun p => valid_name p = true) (parts ++ [fst e])).
  { apply Forall_app. split; [done|]. by constructor. }
  specialize (He (PosixPath.join top (fst e)) (parts ++ [fst e]) Hwf (Hp eq_refl) Hps').
  rewrite <- He.
  pose proof (shape_any_dict deps (parts ++ [fst e]) _ Hwf) as Hany.
  destruct (plain_dir _ (Hp eq_refl)) as [Hnodep _].
  assert (Hkey : FS.assoc "dependencies" (shape deps (parts ++ [fst e]) (Dir es')) = None).
  { apply assoc_None. by intros H%shape_keys. }
  destruct (shape deps (parts ++ [fst e]) (Dir es')) as [|b B] eqn:Hshape; [done|].
  rewrite collect_deps_cons, Hkey, Hany; [|done].
  rewrite (join_relpath parts (fst e) Hps Hname). unfold relpath_of.
  change (collect_deps (PDict []) (Str.join "/" parts)) with (@nil (string * nat)).
  by rewrite app_nil_r.
Qed.

(** X14. For a repository with valid and distinct names in which no
    entry of the top directory or of a kept directory is named
    dependencies, the list print_summary collects for its most
    connected files holds exactly the listed files whose relative path
    has a list in the dependency map that is not empty, each once,
    under its relative path and with the length of that list, in the
    order of the walk. *)
Theorem collect_deps_reports_listed_files fs lp deps n :
  wf_fs fs = true ->
  FS.locate fs lp = Some n ->
  plain n = true ->
  exists S,
    _build_file_structure fs lp deps = Some S
    /\ collect_deps (PDict S) "" = omap (reported deps) (listed_files fs lp).
Proof.
  intros Hwf Hloc Hplain. exists (shape deps [] n). split; [by apply build_shape|].
  unfold listed_files, os_walk. rewrite Hloc.
  apply (collect_subtree deps n lp []); [by eapply locate_wf|done|constructor].
Qed.

Lemma collect_deps_reports_listed_files_witness :
  exists S,
    _build_file_structure fs_nested "/repo"
      {["src/main.py" := ["/repo/src/core/a.py"];
        "src/core/a.py" := ["/repo/src/core/b.py"; "/repo/src/core/b.py"]]} = Some S
    /\ collect_deps (PDict S) ""
       = omap (reported {["src/main.py" := ["/repo/src/core/a.py"];
                          "src/core/a.py" := ["/repo/src/core/b.py"; "/repo/src/core/b.py"]]})
              (listed_files fs_nested "/repo").
Proof.
  eapply (collect_deps_reports_listed_files fs_nested "/repo"); reflexivity.
Defined.

(** In fs_nested with two files holding dependencies: src/main.py with
    one and src/core/a.py with two. *)
Example collect_deps_nested :
  omap (reported {["src/main.py" := ["/repo/src/core/a.py"];
                   "src/core/a.py" := ["/repo/src/core/b.py"; "/repo/src/core/b.py"]]})
       (listed_files fs_nested "/repo")
  = [("src/main.py", 1%nat); ("src/core/a.py", 2%nat)].
Proof. reflexivity. Qed.

(** With a directory named dependencies the report is about the
    directory holding it: in fs_dependencies_dir the package pkg is
    reported with the number of entries of pkg/dependencies, and
    nothing below it is looked at. *)
Example collect_deps_dependencies_dir :
  plain (Dir [("pkg", Dir [("dependencies", Dir [("a.py", src "")])])]) = false
  /\ (forall S, _build_file_structure fs_dependencies_dir "/repo"
                  {["pkg/dependencies/a.py" := ["/x.py"; "/y.py"]]} = Some S ->
                collect_deps (PDict S) "" = [("pkg", 1%nat)]).
Proof.
  split; [reflexivity|]. intros S. rewrite structure_of_tree; [|reflexivity].
  intros [= <-]. reflexivity.
Qed.

(** ** The tokens the Terraform summary reads *)

Lemma collect_terraform_deps_cons key value d st :
  collect_terraform_deps (PDict ((key, value) :: d)) st
  = collect_terraform_deps (PDict d)
      match value with
      | PDict vd =>
          match FS.assoc "dependencies" vd with
          | Some stored => collect_each st (iterate stored)
          | None => if any_dict_value vd then collect_terraform_deps value st else st
          end
      | PList _ => st
      end.
Proof. reflexivity. Qed.

Lemma collect_terraform_deps_app d1 d2 : forall st,
  collect_terraform_deps (PDict (d1 ++ d2)) st
  = collect_terraform_deps (PDict d2) (collect_terraform_deps (PDict d1) st).
Proof.
  induction d1 as [|[k v] d1 IH]; intros st; [done|].
  cbn [app]. by rewrite !collect_terraform_deps_cons, IH.
Qed.

Lemma collect_each_app st l1 l2 :
  collect_each st (l1 ++ l2) = collect_each (collect_each st l1) l2.
Proof. unfold collect_each. by rewrite fold_left_app. Qed.

Lemma collect_terraform_file_entries deps parts files : forall st,
  collect_terraform_deps (PDict (map (file_entry deps parts) files)) st
  = collect_each st (flat_map (listed_tokens deps) (map (fun f => (parts, f)) files)).
Proof.
  induction files as [|f files IH]; intros st; [done|].
  cbn [map flat_map]. unfold file_entry at 1.
  rewrite collect_terraform_deps_cons, IH, collect_each_app. f_equal.
  unfold listed_tokens, file_data. cbn [fst snd].
  by destruct (default [] (deps !! relpath_of parts (fst f))).
Qed.

(** the tokens read for a subtree are the lists of its listed files, in
    the order of the walk *)
Lemma collect_terraform_subtree deps n : forall top parts st,
  wf_node n = true -> plain n = true ->
  collect_terraform_deps (PDict (shape deps parts n)) st
  = collect_each st
      (flat_map (listed_tokens deps)
         (flat_map (fun it => map (fun f => (w_parts it, f)) (w_files it))
                   (walk structure_keep top parts n))).
Proof.
  induction n as [c|es IH] using node_induction; intros top parts st Hwf Hplain; [done|].
  rewrite shape_dir, walk_dir, collect_terraform_deps_app. cbn [flat_map w_parts w_files].
  rewrite flat_map_app, collect_each_app, collect_terraform_file_entries.
  destruct (wf_dir _ Hwf) as [Hes _]. destruct (plain_dir _ Hplain) as [_ Hpl].
  clear Hwf Hplain.
  generalize (collect_each st
                (flat_map (listed_tokens deps)
                   (map (fun f => (parts, f)) (files_of es)))).
  clear st. intros st. revert st.
  induction es as [|e es IHes]; intros st; [done|].
  apply Forall_cons in IH as [He IH]. apply Forall_cons in Hes as [[Hname Hwf] Hes].
  apply Forall_cons in Hpl as [Hp Hpl].
  cbn [flat_map]. rewrite collect_terraform_deps_app, !flat_map_app, collect_each_app.
  rewrite (IHes IH Hes Hpl). f_equal.
  unfold shape_entry, walk_entry. destruct (snd e) as [c|es'] eqn:Hs; [done|].
  destruct (structure_keep (fst e)) eqn:Hkeep; [|done].
  specialize (He (PosixPath.join top (fst e)) (parts ++ [fst e]) st Hwf (Hp eq_refl)).
  rewrite <- He.
  pose proof (shape_any_dict deps (parts ++ [fst e]) _ Hwf) as Hany.
  destruct (plain_dir _ (Hp eq_refl)) as [Hnodep _].
  assert (Hkey : FS.assoc "dependencies" (shape deps (parts ++ [fst e]) (Dir es')) = None).
  { apply assoc_None. by intros H%shape_keys. }
  destruct (shape deps (parts ++ [fst e]) (Dir es')) as [|b B] eqn:Hshape; [done|].
  by rewrite collect_terraform_deps_cons, Hkey, Hany.
Qed.

(** X15. For a repository with valid and distinct names in which no
    entry of the top directory or of a kept directory is named
    dependencies, the Terraform summary reads exactly the dependency
    lists stored for the listed files, token by token in the order of
    the walk, whatever the extension of the file: its four collections
    are the result of reading those tokens one after the other, and it
    raises exactly when reading one of them does. *)
Theorem terraform_summary_reads_listed_tokens fs lp deps n :
  wf_fs fs = true ->
  FS.locate fs lp = Some n ->
  plain n = true ->
  exists S,
    _build_file_structure fs lp deps = Some S
    /\ forall st,
         collect_terraform_deps (PDict S) st
         = collect_each st (flat_map (listed_tokens deps) (listed_files fs lp)).
Proof.
  intros Hwf Hloc Hplain. exists (shape deps [] n). split; [by apply build_shape|].
  intros st. unfold listed_files, os_walk. rewrite Hloc.
  apply (collect_terraform_subtree deps n lp []); [by eapply locate_wf|done].
Qed.

Lemma terraform_summary_reads_listed_tokens_witness :
  exists S,
    _build_file_structure fs_tf_with_module "/repo"
      (_analyze_dependencies fs_tf_with_module "/repo") = Some S
    /\ forall st,
         collect_terraform_deps (PDict S) st
         = collect_each st
             (flat_map (listed_tokens (_analyze_dependencies fs_tf_with_module "/repo"))
                       (listed_files fs_tf_with_module "/repo")).
Proof.
  eapply (terraform_summary_reads_listed_tokens fs_tf_with_module "/repo"); reflexivity.
Defined.

(** In the Terraform scenario the summary finds the module vpc with its
    resolved directory, one resource type, one data type and the one
    variable, referenced twice. *)
Example terraform_summary_scenario :
  forall S,
    _build_file_structure fs_tf_with_module "/repo"
      (_analyze_dependencies fs_tf_with_module "/repo") = Some S ->
    exists st,
      collect_terraform_deps (PDict S) (Some no_components) = Some st
      /\ modules st = [("vpc", "/repo/modules/vpc")]
      /\ resources st = [("aws_vpc", ["main"])]
      /\ data_sources st = [("aws_ami", ["ubuntu"])]
      /\ elements (variables st) = ["cidr_block"].
Proof.
  intros S HS. vm_compute in HS. injection HS as <-.
  eexists. split; [vm_compute; reflexivity|]. repeat split; vm_compute; reflexivity.
Qed.

(** ** The directory of the importing file *)































(** ** The keys of the histogram *)








Lemma same_ignoring_case_sym_empty e : same_ignoring_case e "" = true -> e = "".
Proof. by destruct e. Qed.




